(** * ESP32_Servo.cpp: channel allocation and pulse conversion

  A shallow embedding of [src/ESP32_Servo.cpp].  The class variables
  [ServoCount] and [ChannelUsed] and the calls into the LEDC driver are
  threaded explicitly as a [Globals] record; every method takes the
  globals and the receiver ([this]) and returns the updated pair.

  C++ [int] and [long] are 32-bit two's complement on the ESP32 and are
  carried as [Z] with the wrap-around written out ([wrap]); [float] is
  IEEE-754 binary32, carried as [spec_float] with precision 24. *)

From Stdlib Require Import ZArith Lia Bool List.
From Stdlib Require Import SpecFloat.
From stdpp Require Import base list.

Local Open Scope Z_scope.

(** ** Machine arithmetic *)

Module Int.

Definition min_signed : Z := - 2 ^ 31.
Definition max_signed : Z := 2 ^ 31 - 1.

Definition in_range (z : Z) : bool :=
  (min_signed <=? z) && (z <=? max_signed).

(** Two's-complement reduction of a mathematical integer to 32 bits. *)
Definition wrap (z : Z) : Z := (z + 2 ^ 31) mod 2 ^ 32 - 2 ^ 31.

End Int.

(** Places where the C++ standard leaves the result of an expression
  undefined and the source can still reach them: a shift whose count is
  outside [0, 31], a float-to-int conversion whose value does not fit,
  and an integer division by zero. *)
Inductive undefined_op : Type :=
| ShiftCount (x count : Z)
| FloatToInt (f : spec_float)
| DivByZero (x : Z).

(** ** binary32 *)

Module F32.

Definition prec : Z := 24.
Definition emax : Z := 128.

(** [(float)z] for an integer [z]: round to nearest, ties to even. *)
Definition of_int (z : Z) : spec_float := binary_normalize prec emax z 0 false.

Definition div (x y : spec_float) : spec_float := SFdiv prec emax x y.
Definition mul (x y : spec_float) : spec_float := SFmul prec emax x y.

(** The integer part of a finite float, rounding toward zero. *)
Definition trunc (f : spec_float) : option Z :=
  match f with
  | S754_zero _ => Some 0
  | S754_finite s m e =>
      let mag := if 0 <=? e then Z.pos m * 2 ^ e else Z.pos m / 2 ^ (- e) in
      Some (if s then - mag else mag)
  | S754_infinity _ | S754_nan => None
  end.

End F32.

(** ** Instances for running the model *)

(** The ESP32 has 16 LEDC channels (header comment of the source). *)
Definition esp32_channels : nat := 16.

(** A tick count standing for DEFAULT_PULSE_WIDTH_TICKS in concrete runs. *)
Definition esp32_default_ticks : Z := 4825.

(** A target on which every undefined operation yields 0. *)
Definition zero_target : undefined_op -> Z := fun _ => 0.

Section Target.

(** What the target yields where the language leaves the result
    undefined; every theorem below holds for all such targets. *)
Variable undefined : undefined_op -> Z.

(** [(int)f]: truncation toward zero. *)
Definition int_of_float (f : spec_float) : Z :=
  match F32.trunc f with
  | Some z => if Int.in_range z then z else undefined (FloatToInt f)
  | None => undefined (FloatToInt f)
  end.

(** [x << n] on [int]. *)
Definition shl (x n : Z) : Z :=
  if (0 <=? n) && (n <? 32) then Int.wrap (Z.shiftl x n)
  else undefined (ShiftCount x n).

(** [x >> n] on [int] (arithmetic shift). *)
Definition shr (x n : Z) : Z :=
  if (0 <=? n) && (n <? 32) then Z.shiftr x n
  else undefined (ShiftCount x n).

(** [x / y] on [long]: truncating division. *)
Definition ldiv (x y : Z) : Z :=
  if y =? 0 then undefined (DivByZero x) else Int.wrap (Z.quot x y).

(** Arduino's [map] (WMath.cpp of the Arduino core, an external
    collaborator; the spec gives its formula):
    [(x - in_min) * (out_max - out_min) / (in_max - in_min) + out_min]
    on [long]. *)
Definition arduino_map (x in_min in_max out_min out_max : Z) : Z :=
  Int.wrap
    (ldiv (Int.wrap (Int.wrap (x - in_min) * Int.wrap (out_max - out_min)))
          (Int.wrap (in_max - in_min))
     + out_min).

(** [pow(2, w)] converted back to [int]; exact for the widths the class
    ever stores (16 to 20). *)
Definition pow2 (w : Z) : Z := 2 ^ w.

(** ** Constants of ESP32_Servo.h *)

(** Modelled from the spec: ESP32_Servo.h is absent; the spec lists the
    absolute device bounds 500/2500 us, the per-instance defaults
    544/2400 us, the default timer width 16 and the refresh period
    20000 us (50 Hz). *)
Definition MIN_PULSE_WIDTH : Z := 500.
Definition MAX_PULSE_WIDTH : Z := 2500.
Definition DEFAULT_uS_LOW : Z := 544.
Definition DEFAULT_uS_HIGH : Z := 2400.
Definition DEFAULT_TIMER_WIDTH : Z := 16.
Definition REFRESH_CPS : Z := 50.
Definition REFRESH_USEC : Z := 20000.

(** The two constants of the absent header whose values the spec does
    not give are parameters. *)
Variable MAX_SERVOS : nat.
Variable DEFAULT_PULSE_WIDTH_TICKS : Z.

(** ** State *)

(** Calls into esp32-hal-ledc, in program order. *)
Inductive ledc_call : Type :=
  | ledcSetup (channel freq bits : Z)
  | ledcAttachPin (pin channel : Z)
  | ledcDetachPin (pin : Z)
  | ledcWrite (channel duty : Z).

(** The class variables, and the driver calls made so far. *)
Record Globals : Type := mkGlobals {
  ServoCount : Z;
  ChannelUsed : list Z;
  ledc : list ledc_call
}.

(** The data members of one [Servo] object. *)
Record Servo : Type := mkServo {
  servoChannel : Z;
  min : Z;
  max : Z;
  pinNumber : Z;
  timer_width : Z;
  ticks : Z;
  timer_width_ticks : Z
}.

(** [int Servo::ServoCount = 0; int Servo::ChannelUsed[MAX_SERVOS+1] = {0};] *)
Definition initial : Globals :=
  mkGlobals 0 (replicate (S MAX_SERVOS) 0) [].

(** [ChannelUsed[i]].  Every object holds a channel in
    [0 .. MAX_SERVOS] ([Servo_Servo_inv], [run_inv]), so the accesses of
    the source stay inside the array.  Outside it, where C++ gives the
    access no meaning, a read past the end gives 0 here, a write past
    the end does nothing and a negative index is taken as index 0. *)
Definition ChannelUsed_at (g : Globals) (i : Z) : Z :=
  default 0 (ChannelUsed g !! Z.to_nat i).

(** [ChannelUsed[i] = v;] *)
Definition ChannelUsed_set (i v : Z) (g : Globals) : Globals :=
  mkGlobals (ServoCount g) (<[Z.to_nat i := v]> (ChannelUsed g)) (ledc g).

Definition ServoCount_set (n : Z) (g : Globals) : Globals :=
  mkGlobals n (ChannelUsed g) (ledc g).

Definition call (cs : list ledc_call) (g : Globals) : Globals :=
  mkGlobals (ServoCount g) (ChannelUsed g) (ledc g ++ cs).

Definition servoChannel_set (v : Z) (s : Servo) : Servo :=
  mkServo v (min s) (max s) (pinNumber s) (timer_width s) (ticks s)
          (timer_width_ticks s).
Definition min_set (v : Z) (s : Servo) : Servo :=
  mkServo (servoChannel s) v (max s) (pinNumber s) (timer_width s) (ticks s)
          (timer_width_ticks s).
Definition max_set (v : Z) (s : Servo) : Servo :=
  mkServo (servoChannel s) (min s) v (pinNumber s) (timer_width s) (ticks s)
          (timer_width_ticks s).
Definition pinNumber_set (v : Z) (s : Servo) : Servo :=
  mkServo (servoChannel s) (min s) (max s) v (timer_width s) (ticks s)
          (timer_width_ticks s).
Definition timer_width_set (v : Z) (s : Servo) : Servo :=
  mkServo (servoChannel s) (min s) (max s) (pinNumber s) v (ticks s)
          (timer_width_ticks s).
Definition ticks_set (v : Z) (s : Servo) : Servo :=
  mkServo (servoChannel s) (min s) (max s) (pinNumber s) (timer_width s) v
          (timer_width_ticks s).
Definition timer_width_ticks_set (v : Z) (s : Servo) : Servo :=
  mkServo (servoChannel s) (min s) (max s) (pinNumber s) (timer_width s)
          (ticks s) v.

(** ** Servo::Servo *)

(** The reuse loop [for (int i = 1; i < MAX_SERVOS+1; i++)]: [n] is the
    number of iterations left, so the loop is entered with
    [i = 1] and [n = MAX_SERVOS]. *)
Fixpoint reuse_scan (g : Globals) (i : Z) (n : nat) : option Z :=
  match n with
  | O => None
  | S n' =>
      if ChannelUsed_at g i =? -1 then Some i
      else reuse_scan g (i + 1) n'
  end.

(** "initialize this channel with plausible values, except pin #" *)
Definition plausible_values (this : Servo) : Servo :=
  timer_width_ticks_set (pow2 DEFAULT_TIMER_WIDTH)
    (max_set DEFAULT_uS_HIGH
      (min_set DEFAULT_uS_LOW
        (pinNumber_set (-1)
          (timer_width_set DEFAULT_TIMER_WIDTH
            (ticks_set DEFAULT_PULSE_WIDTH_TICKS this))))).

(** The constructor body; [this] is the object as its declaration left
    it before the body runs. *)
Definition Servo_Servo (g : Globals) (this : Servo) : Globals * Servo :=
  let this := servoChannel_set 0 this in
  let '(g, this) :=
    match reuse_scan g 1 MAX_SERVOS with
    | Some i => (ChannelUsed_set i 1 g, servoChannel_set i this)
    | None =>
        if ServoCount g <? Z.of_nat MAX_SERVOS then
          let c := ServoCount g + 1 in
          (ChannelUsed_set c 1 (ServoCount_set c g), servoChannel_set c this)
        else (g, servoChannel_set 0 this)
    end in
  if 0 <? servoChannel this then (g, plausible_values this)
  else (g, this).

(** ** Servo::attached *)

(** [return (ChannelUsed[this->servoChannel]);] converted to [bool]. *)
Definition attached (g : Globals) (this : Servo) : bool :=
  negb (ChannelUsed_at g (servoChannel this) =? 0).

(** ** Servo::attach *)

(** [attach(pin, min, max)], with ENFORCE_PINS not defined. *)
Definition attach_min_max (g : Globals) (this : Servo) (pin mn mx : Z)
  : Globals * Servo * Z :=
  if (servoChannel this <=? Z.of_nat MAX_SERVOS) && (0 <? servoChannel this)
  then
    let '(g, this) :=
      if pinNumber this <? 0 then
        (ChannelUsed_set (servoChannel this) 1 g,
         timer_width_ticks_set (pow2 DEFAULT_TIMER_WIDTH)
           (timer_width_set DEFAULT_TIMER_WIDTH
             (ticks_set DEFAULT_PULSE_WIDTH_TICKS this)))
      else (g, this) in
    let this := pinNumber_set pin this in
    let mn := if mn <? MIN_PULSE_WIDTH then MIN_PULSE_WIDTH else mn in
    let mx := if MAX_PULSE_WIDTH <? mx then MAX_PULSE_WIDTH else mx in
    let this := max_set mx (min_set mn this) in
    (call [ledcSetup (servoChannel this) REFRESH_CPS (timer_width this);
           ledcAttachPin (pinNumber this) (servoChannel this)] g,
     this, 1)
  else (g, this, 0).

(** [attach(pin)] *)
Definition attach (g : Globals) (this : Servo) (pin : Z)
  : Globals * Servo * Z :=
  attach_min_max g this pin DEFAULT_uS_LOW DEFAULT_uS_HIGH.

(** ** Servo::detach *)

Definition detach (g : Globals) (this : Servo) : Globals * Servo :=
  if attached g this then
    (ChannelUsed_set (servoChannel this) (-1)
       (call [ledcDetachPin (pinNumber this)] g),
     pinNumber_set (-1) this)
  else (g, this).

(** ** Conversions *)

Definition tick_length (this : Servo) : spec_float :=
  F32.div (F32.of_int REFRESH_USEC) (F32.of_int (timer_width_ticks this)).

Definition usToTicks (this : Servo) (usec : Z) : Z :=
  int_of_float (F32.div (F32.of_int usec) (tick_length this)).

Definition ticksToUs (this : Servo) (t : Z) : Z :=
  int_of_float (F32.mul (F32.of_int t) (tick_length this)).

(** ** Servo::writeMicroseconds, Servo::write *)

(** The range check of [writeMicroseconds]. *)
Definition constrain_pulse (this : Servo) (value : Z) : Z :=
  if value <? min this then min this
  else if max this <? value then max this
  else value.

Definition writeMicroseconds (g : Globals) (this : Servo) (value : Z)
  : Globals * Servo :=
  if (servoChannel this <=? Z.of_nat MAX_SERVOS) && attached g this then
    let value := constrain_pulse this value in
    let value := usToTicks this value in
    let this := ticks_set value this in
    (call [ledcWrite (servoChannel this) (ticks this)] g, this)
  else (g, this).

(** What [write] forwards to [writeMicroseconds]: values below
    MIN_PULSE_WIDTH are angles in degrees, the others microseconds. *)
Definition pulse_of_value (this : Servo) (value : Z) : Z :=
  if value <? MIN_PULSE_WIDTH then
    let value :=
      if value <? 0 then 0
      else if 180 <? value then 180
      else value in
    arduino_map value 0 180 (min this) (max this)
  else value.

Definition write (g : Globals) (this : Servo) (value : Z)
  : Globals * Servo :=
  writeMicroseconds g this (pulse_of_value this value).

(** ** Servo::readMicroseconds, Servo::read *)

Definition readMicroseconds (g : Globals) (this : Servo) : Z :=
  if (servoChannel this <=? Z.of_nat MAX_SERVOS) && attached g this then
    ticksToUs this (ticks this)
  else 0.

Definition read (g : Globals) (this : Servo) : Z :=
  arduino_map (Int.wrap (readMicroseconds g this + 1))
              (min this) (max this) 0 180.

(** ** Servo::setTimerWidth, Servo::readTimerWidth *)

Definition setTimerWidth (g : Globals) (this : Servo) (value : Z)
  : Globals * Servo :=
  let value :=
    if value <? 16 then 16
    else if 20 <? value then 20
    else value in
  let widthDifference := Int.wrap (timer_width this - value) in
  let this :=
    if 0 <? widthDifference then
      ticks_set (shl (ticks this) widthDifference) this
    else
      ticks_set (shr (ticks this) widthDifference) this in
  let this := timer_width_set value this in
  let this := timer_width_ticks_set (pow2 (timer_width this)) this in
  if (servoChannel this <=? Z.of_nat MAX_SERVOS) && attached g this then
    (call [ledcDetachPin (pinNumber this);
           ledcSetup (servoChannel this) REFRESH_CPS (timer_width this);
           ledcAttachPin (pinNumber this) (servoChannel this)] g,
     this)
  else (g, this).

Definition readTimerWidth (this : Servo) : Z := timer_width this.

(** ** Scenarios and invariants *)

(** [n] objects constructed one after the other, in construction order;
    each starts from the same declared object [decl]. *)
Fixpoint construct_many (n : nat) (g : Globals) (decl : Servo)
  : Globals * list Servo :=
  match n with
  | O => (g, [])
  | S n' =>
      let '(g1, s) := Servo_Servo g decl in
      let '(g2, l) := construct_many n' g1 decl in
      (g2, s :: l)
  end.

(** One call on a [Servo] object, as a sketch makes it. *)
Inductive method : Type :=
  | Call_attach (pin : Z)
  | Call_attach_min_max (pin mn mx : Z)
  | Call_detach
  | Call_write (value : Z)
  | Call_writeMicroseconds (value : Z)
  | Call_setTimerWidth (value : Z).

Definition invoke (m : method) (st : Globals * Servo) : Globals * Servo :=
  let '(g, this) := st in
  match m with
  | Call_attach pin => (attach g this pin).1
  | Call_attach_min_max pin mn mx => (attach_min_max g this pin mn mx).1
  | Call_detach => detach g this
  | Call_write v => write g this v
  | Call_writeMicroseconds v => writeMicroseconds g this v
  | Call_setTimerWidth v => setTimerWidth g this v
  end.

Definition run (ms : list method) (st : Globals * Servo) : Globals * Servo :=
  fold_left (fun st m => invoke m st) ms st.

(** A sketch with a single object: it is constructed in the initial
    process state, then the calls are made in order. *)
Definition sketch (decl : Servo) (ms : list method) : Globals * Servo :=
  run ms (Servo_Servo initial decl).

(** Modelled from the spec: the class declaration (ESP32_Servo.h) is
    absent; an object whose members hold the per-instance defaults of the
    spec before the constructor body runs. *)
Definition declared : Servo :=
  mkServo 0 DEFAULT_uS_LOW DEFAULT_uS_HIGH 0 DEFAULT_TIMER_WIDTH
          DEFAULT_PULSE_WIDTH_TICKS (pow2 DEFAULT_TIMER_WIDTH).

(** Slot [i] is marked available for reuse. *)
Definition reclaimable (g : Globals) (i : Z) : Prop :=
  ChannelUsed_at g i = -1.

(** What every reachable state of the class variables satisfies. *)
Definition pool_inv (g : Globals) : Prop :=
  0 <= ServoCount g <= Z.of_nat MAX_SERVOS
  /\ length (ChannelUsed g) = S MAX_SERVOS
  /\ ChannelUsed_at g 0 = 0.

(** The object holds a channel number the constructor can hand out. *)
Definition channel_ok (s : Servo) : Prop :=
  0 <= servoChannel s <= Z.of_nat MAX_SERVOS.

(** What every object that holds a channel satisfies. *)
Definition servo_inv (s : Servo) : Prop :=
  MIN_PULSE_WIDTH <= min s
  /\ max s <= MAX_PULSE_WIDTH
  /\ 16 <= timer_width s <= 20
  /\ timer_width_ticks s = pow2 (timer_width s).

(** The pool has no capacity left: every channel was handed out and
    none was given back. *)
Definition exhausted (g : Globals) : Prop :=
  Z.of_nat MAX_SERVOS <= ServoCount g
  /\ forall i, 1 <= i <= Z.of_nat MAX_SERVOS -> ~ reclaimable g i.

(** ** attach with ENFORCE_PINS defined *)

(** "Recommend only the following pins 2,4,12-19,21-23,25-27,32-33" *)
Definition recommended_pin (pin : Z) : bool :=
  (pin =? 2) || (pin =? 4) || ((12 <=? pin) && (pin <=? 19))
  || ((21 <=? pin) && (pin <=? 23)) || ((25 <=? pin) && (pin <=? 27))
  || (pin =? 32) || (pin =? 33).

(** [attach(pin, min, max)] as it compiles when ENFORCE_PINS is defined
    (the source ships with the define commented out). *)
Definition attach_min_max_ENFORCE_PINS
  (g : Globals) (this : Servo) (pin mn mx : Z) : Globals * Servo * Z :=
  if (servoChannel this <=? Z.of_nat MAX_SERVOS) && (0 <? servoChannel this)
  then
    if recommended_pin pin then
      let '(g, this) :=
        if pinNumber this <? 0 then
          (ChannelUsed_set (servoChannel this) 1 g,
           timer_width_ticks_set (pow2 DEFAULT_TIMER_WIDTH)
             (timer_width_set DEFAULT_TIMER_WIDTH
               (ticks_set DEFAULT_PULSE_WIDTH_TICKS this)))
        else (g, this) in
      let this := pinNumber_set pin this in
      let mn := if mn <? MIN_PULSE_WIDTH then MIN_PULSE_WIDTH else mn in
      let mx := if MAX_PULSE_WIDTH <? mx then MAX_PULSE_WIDTH else mx in
      let this := max_set mx (min_set mn this) in
      (call [ledcSetup (servoChannel this) REFRESH_CPS (timer_width this);
             ledcAttachPin (pinNumber this) (servoChannel this)] g,
       this, 1)
    else (g, this, 0)
  else (g, this, 0).

(** ** Programs with several objects *)

(** The states a program can reach: it starts in the initial process state
    with no object, constructs objects (each from some declared object)
    and calls methods on the objects it has. *)
Inductive reachable : Globals -> list Servo -> Prop :=
  | reach_initial : reachable initial []
  | reach_construct g objs decl :
      reachable g objs ->
      reachable (Servo_Servo g decl).1 (objs ++ [(Servo_Servo g decl).2])
  | reach_call g objs (i : nat) this m :
      reachable g objs -> objs !! i = Some this ->
      reachable (invoke m (g, this)).1
                (<[i := (invoke m (g, this)).2]> objs).

(** The tags of the slots: 0 exactly above [ServoCount] (and at the
    ignored index 0), 1 or -1 for the channels handed out so far. *)
Definition pool_tagged (g : Globals) : Prop :=
  pool_inv g
  /\ forall i, 1 <= i <= Z.of_nat MAX_SERVOS ->
       (i <= ServoCount g ->
        ChannelUsed_at g i = 1 \/ ChannelUsed_at g i = -1)
       /\ (ServoCount g < i -> ChannelUsed_at g i = 0).

(** The object's channel is 0 or one that was handed out. *)
Definition owned (g : Globals) (s : Servo) : Prop :=
  0 <= servoChannel s <= ServoCount g.

(** ** Wrap-around *)

Lemma wrap_small z :
  Int.min_signed <= z <= Int.max_signed -> Int.wrap z = z.
Proof.
  unfold Int.wrap, Int.min_signed, Int.max_signed. intros H.
  rewrite Z.mod_small by lia. lia.
Qed.

(** ** Array accesses *)

Lemma ChannelUsed_at_set_eq g i v :
  0 <= i -> (Z.to_nat i < length (ChannelUsed g))%nat ->
  ChannelUsed_at (ChannelUsed_set i v g) i = v.
Proof.
  intros _ Hlen. unfold ChannelUsed_at, ChannelUsed_set; simpl.
  by rewrite list_lookup_insert_eq.
Qed.

Lemma ChannelUsed_at_set_ne g i j v :
  0 <= i -> 0 <= j -> i <> j ->
  ChannelUsed_at (ChannelUsed_set i v g) j = ChannelUsed_at g j.
Proof.
  intros Hi Hj Hne. unfold ChannelUsed_at, ChannelUsed_set; simpl.
  rewrite list_lookup_insert_ne; [done | lia].
Qed.

Lemma ChannelUsed_at_set_other g i j v (P : Z -> Prop) :
  P v -> P (ChannelUsed_at g j) -> P 0 ->
  P (ChannelUsed_at (ChannelUsed_set i v g) j).
Proof.
  intros Hv Hold H0. unfold ChannelUsed_at, ChannelUsed_set in *; simpl.
  destruct (decide (Z.to_nat i = Z.to_nat j)) as [->|Hne].
  - destruct (decide (Z.to_nat j < length (ChannelUsed g))%nat).
    + by rewrite list_lookup_insert_eq.
    + rewrite list_insert_ge by lia. done.
  - by rewrite list_lookup_insert_ne.
Qed.

Lemma ChannelUsed_at_ServoCount_set g n i :
  ChannelUsed_at (ServoCount_set n g) i = ChannelUsed_at g i.
Proof. reflexivity. Qed.

Lemma ChannelUsed_at_call g cs i :
  ChannelUsed_at (call cs g) i = ChannelUsed_at g i.
Proof. reflexivity. Qed.

(** ** The reuse loop *)

(** The loop stops at the lowest reclaimable index of its range. *)
Lemma reuse_scan_Some g n : forall i j,
  reuse_scan g i n = Some j ->
  i <= j < i + Z.of_nat n /\ reclaimable g j
  /\ forall k, i <= k < j -> ~ reclaimable g k.
Proof.
  induction n as [|n IH]; intros i j; simpl; [discriminate|].
  destruct (ChannelUsed_at g i =? -1) eqn:E.
  - intros [= <-]. apply Z.eqb_eq in E.
    split; [lia|]. split; [exact E|]. intros k Hk; lia.
  - intros H. apply IH in H as (Hr & Hj & Hlow).
    apply Z.eqb_neq in E.
    split; [lia|]. split; [exact Hj|].
    intros k Hk. destruct (decide (k = i)) as [->|]; [exact E|].
    apply Hlow. lia.
Qed.

Lemma reuse_scan_None g n : forall i,
  reuse_scan g i n = None <->
  forall k, i <= k < i + Z.of_nat n -> ~ reclaimable g k.
Proof.
  induction n as [|n IH]; intros i; simpl.
  - split; [intros _ k Hk; lia | done].
  - destruct (ChannelUsed_at g i =? -1) eqn:E.
    + apply Z.eqb_eq in E. split; [discriminate|].
      intros H. exfalso. apply (H i); [lia | done].
    + apply Z.eqb_neq in E. rewrite IH. split.
      * intros H k Hk. destruct (decide (k = i)) as [->|]; [done|].
        apply H. lia.
      * intros H k Hk. apply H. lia.
Qed.

Lemma reuse_scan_lowest g n i j :
  i <= j < i + Z.of_nat n -> reclaimable g j ->
  (forall k, i <= k < j -> ~ reclaimable g k) ->
  reuse_scan g i n = Some j.
Proof.
  intros Hj Hr Hlow.
  destruct (reuse_scan g i n) as [j'|] eqn:E.
  - apply reuse_scan_Some in E as (Hj' & Hr' & Hlow').
    f_equal. destruct (Z.lt_trichotomy j' j) as [Hlt|[->|Hgt]]; [|done|].
    + exfalso. apply (Hlow j'); [lia | done].
    + exfalso. apply (Hlow' j); [lia | done].
  - exfalso. rewrite reuse_scan_None in E. apply (E j); [lia | done].
Qed.

(** ** The three outcomes of the constructor *)

Lemma Servo_Servo_reuse g decl i :
  1 <= i -> reuse_scan g 1 MAX_SERVOS = Some i ->
  Servo_Servo g decl
  = (ChannelUsed_set i 1 g, plausible_values (servoChannel_set i decl)).
Proof.
  intros Hi E. unfold Servo_Servo. rewrite E.
  cbn [servoChannel servoChannel_set].
  destruct (Z.ltb_spec 0 i); [reflexivity | lia].
Qed.

Lemma Servo_Servo_fresh g decl :
  reuse_scan g 1 MAX_SERVOS = None ->
  0 <= ServoCount g < Z.of_nat MAX_SERVOS ->
  Servo_Servo g decl
  = (ChannelUsed_set (ServoCount g + 1) 1
       (ServoCount_set (ServoCount g + 1) g),
     plausible_values (servoChannel_set (ServoCount g + 1) decl)).
Proof.
  intros E Hc. unfold Servo_Servo. rewrite E.
  destruct (Z.ltb_spec (ServoCount g) (Z.of_nat MAX_SERVOS)); [|lia].
  cbn [servoChannel servoChannel_set].
  destruct (Z.ltb_spec 0 (ServoCount g + 1)); [reflexivity | lia].
Qed.

Lemma Servo_Servo_full g decl :
  reuse_scan g 1 MAX_SERVOS = None ->
  Z.of_nat MAX_SERVOS <= ServoCount g ->
  Servo_Servo g decl = (g, servoChannel_set 0 decl).
Proof.
  intros E Hc. unfold Servo_Servo. rewrite E.
  destruct (Z.ltb_spec (ServoCount g) (Z.of_nat MAX_SERVOS)); [lia|].
  reflexivity.
Qed.

Lemma initial_not_reclaimable i : ~ reclaimable initial i.
Proof.
  unfold reclaimable, ChannelUsed_at, initial.
  cbn [ChannelUsed].
  destruct (replicate (S MAX_SERVOS) 0 !! Z.to_nat i) as [x|] eqn:E;
    cbn [default from_option id]; [|lia].
  apply lookup_replicate in E as [-> _]. lia.
Qed.

(** Without a detach in between, consecutive constructions hand out
    consecutive channel numbers. *)
Lemma construct_many_channels n : forall g decl,
  (forall i, ~ reclaimable g i) ->
  0 <= ServoCount g -> ServoCount g + Z.of_nat n <= Z.of_nat MAX_SERVOS ->
  servoChannel <$> (construct_many n g decl).2
  = seqZ (ServoCount g + 1) (Z.of_nat n).
Proof.
  induction n as [|n IH]; intros g decl Hnr H0 Hle; [reflexivity|].
  cbn [construct_many].
  rewrite Servo_Servo_fresh; [| by apply reuse_scan_None | lia].
  set (c := ServoCount g + 1).
  set (g1 := ChannelUsed_set c 1 (ServoCount_set c g)).
  specialize (IH g1 decl).
  destruct (construct_many n g1 decl) as [g2 l] eqn:E. simpl in *.
  rewrite seqZ_cons by lia. f_equal.
  replace (Z.pred (Z.of_nat (S n))) with (Z.of_nat n) by lia.
  replace (Z.succ c) with (c + 1) by lia.
  apply IH; [| unfold c; lia | unfold c; lia].
  intros i. unfold reclaimable, g1.
  apply (ChannelUsed_at_set_other _ _ _ _ (fun v => v <> -1)); [lia | | lia].
  rewrite ChannelUsed_at_ServoCount_set. apply Hnr.
Qed.

(** C1: from the initial process state, [N <= MAX_SERVOS] consecutive
    constructions with no detach give the i-th constructed object
    (counting from 1) channel number i; the channel numbers are
    pairwise distinct and all lie in [1, N]. *)
Theorem C1_consecutive_constructions (N : nat) (decl : Servo) :
  (N <= MAX_SERVOS)%nat ->
  let l := (construct_many N initial decl).2 in
  length l = N
  /\ (forall (i : nat) s, l !! i = Some s ->
        servoChannel s = Z.of_nat i + 1)
  /\ NoDup (servoChannel <$> l)
  /\ (forall s, s ∈ l -> 1 <= servoChannel s <= Z.of_nat N).
Proof.
  intros HN l.
  assert (Hch : servoChannel <$> l = seqZ 1 (Z.of_nat N)).
  { unfold l. rewrite construct_many_channels; simpl;
      [reflexivity | apply initial_not_reclaimable | lia | lia]. }
  split; [|split; [|split]].
  - rewrite <- (length_fmap servoChannel), Hch, length_seqZ. lia.
  - intros i s Hi.
    assert (Hi' : (servoChannel <$> l) !! i = Some (servoChannel s))
      by (by rewrite list_lookup_fmap, Hi).
    rewrite Hch in Hi'. apply lookup_seqZ in Hi'. lia.
  - rewrite Hch. apply NoDup_seqZ.
  - intros s Hs.
    assert (Hs' : servoChannel s ∈ servoChannel <$> l)
      by (by apply list_elem_of_fmap_2).
    rewrite Hch in Hs'. apply elem_of_seqZ in Hs'. lia.
Qed.

(** ** Call_detach *)

Lemma detach_attached g a :
  attached g a = true ->
  detach g a
  = (ChannelUsed_set (servoChannel a) (-1)
       (call [ledcDetachPin (pinNumber a)] g),
     pinNumber_set (-1) a).
Proof. intros H. unfold detach. by rewrite H. Qed.

Lemma detach_not_attached g a : attached g a = false -> detach g a = (g, a).
Proof. intros H. unfold detach. by rewrite H. Qed.

(** After a detach the object's own slot is reclaimable and every other
    slot is as before. *)
Lemma detach_slots g a :
  length (ChannelUsed g) = S MAX_SERVOS ->
  1 <= servoChannel a <= Z.of_nat MAX_SERVOS ->
  attached g a = true ->
  reclaimable (detach g a).1 (servoChannel a)
  /\ forall k, 0 <= k -> k <> servoChannel a ->
       ChannelUsed_at (detach g a).1 k = ChannelUsed_at g k.
Proof.
  intros Hlen Hch Hatt. rewrite detach_attached by done. simpl. split.
  - unfold reclaimable. apply ChannelUsed_at_set_eq; [lia|].
    simpl. rewrite Hlen. lia.
  - intros k Hk Hne. rewrite ChannelUsed_at_set_ne by lia.
    apply ChannelUsed_at_call.
Qed.

(** C2 (amended): when some slot is reclaimable, the constructor takes
    the lowest-indexed reclaimable slot [i], marks it in use (1),
    changes no other slot and not [ServoCount], and the new object
    holds channel [i].  Detaching an attached object [a] and then
    constructing [b] gives [b] a channel no higher than [a]'s, and
    exactly [a]'s channel if and only if no slot below it was
    reclaimable. *)
Theorem C2_lowest_reclaimable_wins :
  (forall g decl i,
     length (ChannelUsed g) = S MAX_SERVOS ->
     1 <= i <= Z.of_nat MAX_SERVOS ->
     reclaimable g i ->
     (forall k, 1 <= k < i -> ~ reclaimable g k) ->
     servoChannel (Servo_Servo g decl).2 = i
     /\ ChannelUsed_at (Servo_Servo g decl).1 i = 1
     /\ ServoCount (Servo_Servo g decl).1 = ServoCount g
     /\ forall j, 0 <= j -> j <> i ->
          ChannelUsed_at (Servo_Servo g decl).1 j = ChannelUsed_at g j)
  /\ (forall g a decl,
        length (ChannelUsed g) = S MAX_SERVOS ->
        1 <= servoChannel a <= Z.of_nat MAX_SERVOS ->
        attached g a = true ->
        let b := (Servo_Servo (detach g a).1 decl).2 in
        1 <= servoChannel b <= servoChannel a
        /\ (servoChannel b = servoChannel a <->
            forall k, 1 <= k < servoChannel a -> ~ reclaimable g k)).
Proof.
  split.
  - intros g decl i Hlen Hi Hr Hlow.
    rewrite (Servo_Servo_reuse g decl i);
      [| lia | apply reuse_scan_lowest; [lia | done | done]].
    simpl. split; [reflexivity|]. split; [|split; [reflexivity|]].
    + apply ChannelUsed_at_set_eq; [lia | rewrite Hlen; lia].
    + intros j Hj Hne. apply ChannelUsed_at_set_ne; lia.
  - intros g a decl Hlen Hch Hatt b.
    destruct (detach_slots g a Hlen Hch Hatt) as [Hra Hother].
    destruct (reuse_scan (detach g a).1 1 MAX_SERVOS) as [j|] eqn:E.
    + pose proof (reuse_scan_Some _ _ _ _ E) as (Hj & Hrj & Hlow).
      assert (Hb : servoChannel b = j).
      { unfold b. rewrite (Servo_Servo_reuse _ decl j); [done | lia | done]. }
      rewrite Hb.
      assert (Hle : j <= servoChannel a).
      { destruct (Z.le_gt_cases j (servoChannel a)); [done|].
        exfalso. apply (Hlow (servoChannel a)); [lia | done]. }
      split; [lia|]. split.
      * intros -> k Hk Hrk. apply (Hlow k); [lia|].
        unfold reclaimable. rewrite Hother by lia. done.
      * intros Hnone.
        destruct (decide (j = servoChannel a)) as [|Hne]; [done|].
        exfalso. apply (Hnone j); [lia|].
        unfold reclaimable in *. by rewrite <- Hother by lia.
    + exfalso. rewrite reuse_scan_None in E.
      apply (E (servoChannel a)); [lia | done].
Qed.

(** ** An object without a channel *)

Lemma exhausted_scan g : exhausted g -> reuse_scan g 1 MAX_SERVOS = None.
Proof.
  intros [_ H]. apply reuse_scan_None. intros k Hk. apply H. lia.
Qed.

(** C3 (amended): when every channel is assigned and none is
    reclaimable, the constructor changes no class variable and leaves
    the object with sentinel channel 0 and its other members as
    declared.  On that object, in any later state of the class
    variables (whose unused slot 0 is still 0), attach returns 0,
    detach, write and writeMicroseconds change nothing and call no
    driver function, and readMicroseconds returns 0; read returns
    [map(1, min, max, 0, 180)] of the declared bounds; setTimerWidth
    changes no class variable, calls no driver function and keeps
    channel 0. *)
Theorem C3_exhausted_pool g decl :
  exhausted g ->
  Servo_Servo g decl = (g, servoChannel_set 0 decl)
  /\ forall g', ChannelUsed_at g' 0 = 0 ->
       let s := servoChannel_set 0 decl in
       attached g' s = false
       /\ (forall pin mn mx, attach_min_max g' s pin mn mx = (g', s, 0))
       /\ (forall pin, attach g' s pin = (g', s, 0))
       /\ detach g' s = (g', s)
       /\ (forall v, writeMicroseconds g' s v = (g', s))
       /\ (forall v, write g' s v = (g', s))
       /\ readMicroseconds g' s = 0
       /\ read g' s = arduino_map 1 (min decl) (max decl) 0 180
       /\ (forall v, (setTimerWidth g' s v).1 = g'
                     /\ servoChannel (setTimerWidth g' s v).2 = 0).
Proof.
  intros Hex. split.
  - apply Servo_Servo_full; [by apply exhausted_scan | apply Hex].
  - intros g' H0 s.
    assert (Hatt : attached g' s = false).
    { unfold attached, s. simpl. rewrite H0. reflexivity. }
    assert (Hwm : forall v, writeMicroseconds g' s v = (g', s)).
    { intros v. unfold writeMicroseconds. rewrite Hatt.
      by rewrite andb_false_r. }
    assert (Hrm : readMicroseconds g' s = 0).
    { unfold readMicroseconds. rewrite Hatt. by rewrite andb_false_r. }
    assert (Ham : forall pin mn mx,
               attach_min_max g' s pin mn mx = (g', s, 0)).
    { intros pin mn mx. unfold attach_min_max, s. simpl.
      by rewrite andb_false_r. }
    split; [exact Hatt|]. split; [exact Ham|].
    split; [intros pin; apply Ham|].
    split; [apply detach_not_attached, Hatt|].
    split; [exact Hwm|].
    split; [intros v; unfold write; apply Hwm|].
    split; [exact Hrm|].
    split; [unfold read; rewrite Hrm; reflexivity|].
    intros v. unfold setTimerWidth. cbv zeta.
    destruct (v <? 16); [|destruct (20 <? v)];
      (destruct (0 <? Int.wrap _);
       match goal with
       | |- context [attached g' ?s'] =>
           change (attached g' s') with (attached g' s)
       end;
       rewrite Hatt, andb_false_r; done).
Qed.

(** ** Reading and writing on an attached object *)

Lemma writeMicroseconds_attached g this v :
  servoChannel this <= Z.of_nat MAX_SERVOS -> attached g this = true ->
  writeMicroseconds g this v
  = (call [ledcWrite (servoChannel this)
             (usToTicks this (constrain_pulse this v))] g,
     ticks_set (usToTicks this (constrain_pulse this v)) this).
Proof.
  intros Hch Hatt. unfold writeMicroseconds. rewrite Hatt.
  destruct (Z.leb_spec (servoChannel this) (Z.of_nat MAX_SERVOS)); [|lia].
  reflexivity.
Qed.

Lemma readMicroseconds_attached g this :
  servoChannel this <= Z.of_nat MAX_SERVOS -> attached g this = true ->
  readMicroseconds g this = ticksToUs this (ticks this).
Proof.
  intros Hch Hatt. unfold readMicroseconds. rewrite Hatt.
  destruct (Z.leb_spec (servoChannel this) (Z.of_nat MAX_SERVOS)); [|lia].
  reflexivity.
Qed.

Lemma attached_call g cs this : attached (call cs g) this = attached g this.
Proof. reflexivity. Qed.

(** A property checked on every element of an integer interval. *)
Lemma forallb_seqZ (P : Z -> bool) lo n :
  forallb P (seqZ lo n) = true ->
  forall z, lo <= z < lo + n -> P z = true.
Proof.
  intros H z Hz. rewrite forallb_forall in H. apply H.
  apply list_elem_of_In, elem_of_seqZ. lia.
Qed.

(** C5 (amended): for every timer width w in [16, 20] and every pulse
    width us in [MIN_PULSE_WIDTH, MAX_PULSE_WIDTH], converting to ticks
    and back loses at most one microsecond and never gains:
    us - 1 <= ticksToUs(usToTicks(us)) <= us. *)
Theorem C5_roundtrip_within_one_us (this : Servo) (w us : Z) :
  16 <= w <= 20 ->
  timer_width_ticks this = pow2 w ->
  MIN_PULSE_WIDTH <= us <= MAX_PULSE_WIDTH ->
  us - 1 <= ticksToUs this (usToTicks this us) <= us.
Proof.
  intros Hw Htw Hus.
  destruct this as [ch mn mx pin tw tk twt]; simpl in Htw; subst twt.
  set (s := fun w => mkServo ch mn mx pin tw tk (pow2 w)).
  change (us - 1 <= ticksToUs (s w) (usToTicks (s w) us) <= us).
  set (ok := fun w us =>
    let r := ticksToUs (s w) (usToTicks (s w) us) in
    (us - 1 <=? r) && (r <=? us)).
  assert (Hall : forallb (fun w => forallb (ok w) (seqZ 500 2001))
                   (seqZ 16 5) = true)
    by (vm_compute; reflexivity).
  pose proof (forallb_seqZ _ _ _ Hall w ltac:(lia)) as Hrow.
  pose proof (forallb_seqZ _ _ _ Hrow us
                ltac:(unfold MIN_PULSE_WIDTH, MAX_PULSE_WIDTH in Hus; lia))
    as Hcell.
  unfold ok in Hcell. cbv zeta in Hcell.
  apply andb_true_iff in Hcell as [H1 H2].
  apply Z.leb_le in H1, H2. lia.
Qed.

(** C6: on an attached object with the default bounds 544/2400 us and
    the default 16-bit timer width, [write(angle)] followed by [read()]
    returns a value within one degree of [angle], for every angle in
    [0, 180]. *)
Theorem C6_write_read_within_one_degree g this angle :
  servoChannel this <= Z.of_nat MAX_SERVOS ->
  attached g this = true ->
  min this = DEFAULT_uS_LOW -> max this = DEFAULT_uS_HIGH ->
  timer_width this = DEFAULT_TIMER_WIDTH ->
  timer_width_ticks this = pow2 (timer_width this) ->
  0 <= angle <= 180 ->
  Z.abs (read (write g this angle).1 (write g this angle).2 - angle) <= 1.
Proof.
  intros Hch Hatt Hmin Hmax Hw Htw Hangle.
  unfold write. rewrite writeMicroseconds_attached by done.
  cbn [fst snd]. unfold read.
  rewrite readMicroseconds_attached by done.
  destruct this as [ch mn mx pin tw tk twt]; simpl in *. subst.
  set (s := mkServo ch DEFAULT_uS_LOW DEFAULT_uS_HIGH pin DEFAULT_TIMER_WIDTH
              tk (pow2 DEFAULT_TIMER_WIDTH)).
  set (t := fun a => usToTicks s (constrain_pulse s (pulse_of_value s a))).
  change (Z.abs (arduino_map
                   (Int.wrap (ticksToUs (ticks_set (t angle) s) (t angle) + 1))
                   DEFAULT_uS_LOW DEFAULT_uS_HIGH 0 180 - angle) <= 1).
  set (ok := fun a =>
    Z.abs (arduino_map
             (Int.wrap (ticksToUs (ticks_set (t a) s) (t a) + 1))
             DEFAULT_uS_LOW DEFAULT_uS_HIGH 0 180 - a) <=? 1).
  assert (Hall : forallb ok (seqZ 0 181) = true) by (vm_compute; reflexivity).
  pose proof (forallb_seqZ _ _ _ Hall angle ltac:(lia)) as Hcell.
  unfold ok in Hcell. by apply Z.leb_le in Hcell.
Qed.

(** ** Invariants of the class variables and of the objects *)

Ltac cases :=
  repeat match goal with
    | |- context [Z.ltb ?a ?b] => destruct (Z.ltb_spec a b)
    | |- context [Z.leb ?a ?b] => destruct (Z.leb_spec a b)
    | |- context [attached ?g ?s] =>
        let E := fresh "Eatt" in destruct (attached g s) eqn:E
    end; cbn [andb fst snd].

Lemma pool_inv_initial : pool_inv initial.
Proof.
  unfold pool_inv, initial, ChannelUsed_at; simpl.
  rewrite length_replicate. repeat split; lia.
Qed.

Lemma pool_inv_call g cs : pool_inv g -> pool_inv (call cs g).
Proof. done. Qed.

Lemma pool_inv_ChannelUsed_set g i v :
  1 <= i -> pool_inv g -> pool_inv (ChannelUsed_set i v g).
Proof.
  intros Hi (Hc & Hlen & H0). unfold pool_inv.
  rewrite ChannelUsed_at_set_ne by lia.
  unfold ChannelUsed_set; simpl. rewrite length_insert. done.
Qed.

Lemma Servo_Servo_inv g decl :
  pool_inv g ->
  pool_inv (Servo_Servo g decl).1
  /\ channel_ok (Servo_Servo g decl).2
  /\ (0 < servoChannel (Servo_Servo g decl).2 ->
      servo_inv (Servo_Servo g decl).2
      /\ attached (Servo_Servo g decl).1 (Servo_Servo g decl).2 = true).
Proof.
  intros Hinv. pose proof Hinv as (Hc & Hlen & H0).
  assert (Hdef : forall s, servo_inv (plausible_values s)).
  { intros s. unfold servo_inv; simpl.
    unfold MIN_PULSE_WIDTH, MAX_PULSE_WIDTH, DEFAULT_uS_LOW, DEFAULT_uS_HIGH,
      DEFAULT_TIMER_WIDTH. repeat split; lia. }
  destruct (reuse_scan g 1 MAX_SERVOS) as [i|] eqn:E.
  - pose proof (reuse_scan_Some _ _ _ _ E) as (Hi & _ & _).
    rewrite (Servo_Servo_reuse g decl i) by (done || lia). simpl.
    split; [apply pool_inv_ChannelUsed_set; [lia | done]|].
    split; [unfold channel_ok; simpl; lia|].
    intros _. split; [apply Hdef|].
    unfold attached; simpl.
    rewrite ChannelUsed_at_set_eq by (rewrite ?Hlen; lia). done.
  - destruct (Z.lt_ge_cases (ServoCount g) (Z.of_nat MAX_SERVOS)).
    + rewrite Servo_Servo_fresh by (done || lia). simpl.
      split.
      * apply pool_inv_ChannelUsed_set; [lia|].
        unfold pool_inv, ServoCount_set, ChannelUsed_at in *; simpl.
        repeat split; (done || lia).
      * split; [unfold channel_ok; simpl; lia|].
        intros _. split; [apply Hdef|].
        unfold attached; simpl.
        rewrite ChannelUsed_at_set_eq by (simpl; rewrite ?Hlen; lia). done.
    + rewrite Servo_Servo_full by (done || lia). simpl.
      split; [done|]. split; [unfold channel_ok; simpl; lia|]. lia.
Qed.

Lemma attach_min_max_inv g this pin mn mx :
  pool_inv g -> channel_ok this -> servo_inv this ->
  pool_inv (attach_min_max g this pin mn mx).1.1
  /\ channel_ok (attach_min_max g this pin mn mx).1.2
  /\ servo_inv (attach_min_max g this pin mn mx).1.2.
Proof.
  intros Hinv Hch (Hmin & Hmax & Hw & Htw).
  unfold attach_min_max, channel_ok, servo_inv in *.
  unfold MIN_PULSE_WIDTH, MAX_PULSE_WIDTH, DEFAULT_TIMER_WIDTH in *.
  cases; simpl; (split; [|split; [|split; [|split; [|split]]]]);
    first [ done | lia
          | apply pool_inv_call, pool_inv_ChannelUsed_set; [lia | done]
          | apply pool_inv_call; done ].
Qed.

Lemma detach_inv g this :
  pool_inv g -> channel_ok this -> servo_inv this ->
  pool_inv (detach g this).1 /\ channel_ok (detach g this).2
  /\ servo_inv (detach g this).2.
Proof.
  intros Hinv Hch Hs. unfold detach.
  destruct (attached g this) eqn:Hatt; [|done]. simpl.
  split; [|done].
  apply pool_inv_ChannelUsed_set; [|done].
  destruct (Z.eq_dec (servoChannel this) 0) as [E|]; [|unfold channel_ok in Hch; lia].
  exfalso. unfold attached in Hatt. rewrite E in Hatt.
  destruct Hinv as (_ & _ & H0). by rewrite H0 in Hatt.
Qed.

Lemma writeMicroseconds_inv g this v :
  pool_inv g -> channel_ok this -> servo_inv this ->
  pool_inv (writeMicroseconds g this v).1
  /\ channel_ok (writeMicroseconds g this v).2
  /\ servo_inv (writeMicroseconds g this v).2.
Proof. intros Hinv Hch Hs. unfold writeMicroseconds. by cases. Qed.

Lemma write_inv g this v :
  pool_inv g -> channel_ok this -> servo_inv this ->
  pool_inv (write g this v).1 /\ channel_ok (write g this v).2
  /\ servo_inv (write g this v).2.
Proof. apply writeMicroseconds_inv. Qed.

Lemma setTimerWidth_inv g this v :
  pool_inv g -> channel_ok this -> servo_inv this ->
  pool_inv (setTimerWidth g this v).1
  /\ channel_ok (setTimerWidth g this v).2
  /\ servo_inv (setTimerWidth g this v).2
  /\ 16 <= readTimerWidth (setTimerWidth g this v).2 <= 20.
Proof.
  intros Hinv Hch (Hmin & Hmax & Hw & Htw).
  unfold setTimerWidth, readTimerWidth, servo_inv, channel_ok in *.
  cases; simpl;
    (split; [|split; [|split; [split; [|split; [|split]]|]]]);
    first [ done | lia | apply pool_inv_call; done ].
Qed.

(** A slot that was handed out never reads 0 again, whatever any object
    does afterwards. *)
Lemma ChannelUsed_set_keeps_used g i v j :
  v <> 0 -> ChannelUsed_at g j <> 0 ->
  ChannelUsed_at (ChannelUsed_set i v g) j <> 0.
Proof.
  intros Hv Hj. unfold ChannelUsed_at, ChannelUsed_set in *; simpl.
  destruct (decide (Z.to_nat i = Z.to_nat j)) as [E|Hne].
  - rewrite E. destruct (ChannelUsed g !! Z.to_nat j) eqn:El; [|done].
    rewrite list_lookup_insert_eq; [done|]. by eapply lookup_lt_Some.
  - by rewrite list_lookup_insert_ne.
Qed.

(** ** attached, detach and reattach *)

(** [attached] is the int-to-bool conversion of the slot: it is true for
    the in-use tag 1 and for the reclaimable tag -1 alike. *)
Lemma attached_iff g this :
  attached g this = true <-> ChannelUsed_at g (servoChannel this) <> 0.
Proof.
  unfold attached. destruct (Z.eqb_spec (ChannelUsed_at g (servoChannel this)) 0);
    simpl; split; (done || lia).
Qed.

(** A detach marks the slot -1, so the object still counts as attached
    and still reports its pulse width. *)
Lemma detach_keeps_attached g this :
  length (ChannelUsed g) = S MAX_SERVOS ->
  1 <= servoChannel this <= Z.of_nat MAX_SERVOS ->
  attached g this = true ->
  reclaimable (detach g this).1 (servoChannel this)
  /\ attached (detach g this).1 (detach g this).2 = true
  /\ readMicroseconds (detach g this).1 (detach g this).2
     = ticksToUs this (ticks this).
Proof.
  intros Hlen Hch Hatt.
  destruct (detach_slots g this Hlen Hch Hatt) as [Hr _].
  assert (Hatt' : attached (detach g this).1 (detach g this).2 = true).
  { rewrite detach_attached in * by done. simpl in *.
    apply attached_iff. simpl. unfold reclaimable in Hr. lia. }
  split; [done|]. split; [done|].
  rewrite readMicroseconds_attached; [| | done];
    rewrite detach_attached by done; simpl; [reflexivity | lia].
Qed.

(** C8 (amended): detach keeps the tick count, the timer width and the
    pulse bounds of an attached object and only clears its pin; a following
    attach succeeds and re-initialises the tick count to
    DEFAULT_PULSE_WIDTH_TICKS and the timer width to the default, so the
    tick count after detach and reattach is the default and not the
    value before the detach. *)
Theorem C8_detach_keeps_ticks_reattach_resets g this pin :
  1 <= servoChannel this <= Z.of_nat MAX_SERVOS ->
  attached g this = true ->
  let d := detach g this in
  let r := attach d.1 d.2 pin in
  (ticks d.2 = ticks this
   /\ timer_width d.2 = timer_width this
   /\ timer_width_ticks d.2 = timer_width_ticks this
   /\ min d.2 = min this /\ max d.2 = max this
   /\ pinNumber d.2 = -1)
  /\ r.2 = 1
  /\ ticks r.1.2 = DEFAULT_PULSE_WIDTH_TICKS
  /\ timer_width r.1.2 = DEFAULT_TIMER_WIDTH
  /\ timer_width_ticks r.1.2 = pow2 DEFAULT_TIMER_WIDTH
  /\ pinNumber r.1.2 = pin.
Proof.
  intros Hch Hatt d r. unfold r, d. rewrite detach_attached by done.
  cbn [fst snd]. split; [done|].
  unfold attach, attach_min_max. cbn [servoChannel pinNumber pinNumber_set].
  destruct (Z.leb_spec (servoChannel this) (Z.of_nat MAX_SERVOS)); [|lia].
  destruct (Z.ltb_spec 0 (servoChannel this)); [|lia].
  done.
Qed.

(** ** attach(pin, min, max) *)

(** The two checks of [attach] are one-sided: [min] is only raised to
    MIN_PULSE_WIDTH and [max] is only lowered to MAX_PULSE_WIDTH. *)
Lemma attach_min_max_bounds g this pin mn mx :
  1 <= servoChannel this <= Z.of_nat MAX_SERVOS ->
  let r := attach_min_max g this pin mn mx in
  r.2 = 1
  /\ min r.1.2 = Z.max mn MIN_PULSE_WIDTH
  /\ max r.1.2 = Z.min mx MAX_PULSE_WIDTH.
Proof.
  intros Hch. unfold attach_min_max.
  destruct (Z.leb_spec (servoChannel this) (Z.of_nat MAX_SERVOS)); [|lia].
  destruct (Z.ltb_spec 0 (servoChannel this)); [|lia].
  cbn [andb].
  destruct (pinNumber this <? 0); cbn [fst snd min max min_set max_set];
    (split; [done|]); split.
  all: try (destruct (Z.ltb_spec mn MIN_PULSE_WIDTH); lia).
  all: destruct (Z.ltb_spec MAX_PULSE_WIDTH mx); lia.
Qed.

(** ** The threshold of write *)

Lemma arduino_map_180 mn mx :
  MIN_PULSE_WIDTH <= mn -> mn <= mx -> mx <= MAX_PULSE_WIDTH ->
  arduino_map 180 0 180 mn mx = mx.
Proof.
  unfold MIN_PULSE_WIDTH, MAX_PULSE_WIDTH. intros H1 H2 H3.
  unfold arduino_map, ldiv.
  assert (Hs : forall z, -3000000 <= z <= 3000000 -> Int.wrap z = z).
  { intros z Hz. apply wrap_small.
    unfold Int.min_signed, Int.max_signed. lia. }
  rewrite (Hs (180 - 0)), (Hs (mx - mn)) by lia.
  rewrite (Hs ((180 - 0) * (mx - mn))) by lia.
  destruct (Z.eqb_spec (180 - 0) 0); [lia|].
  replace ((180 - 0) * (mx - mn)) with ((mx - mn) * 180) by lia.
  rewrite Z.quot_mul by lia.
  rewrite (Hs (mx - mn)) by lia. rewrite Hs by lia. lia.
Qed.

(** C10 (amended): on an attached object with
    500 < minPulseUs <= maxPulseUs (<= 2500, as attach guarantees),
    write(499) is taken as an angle, clamped to 180 and stores the tick
    count of maxPulseUs, while write(500) is taken as microseconds,
    clamped up to minPulseUs and stores the tick count of minPulseUs. *)
Theorem C10_write_threshold g this :
  servoChannel this <= Z.of_nat MAX_SERVOS ->
  attached g this = true ->
  MIN_PULSE_WIDTH < min this ->
  min this <= max this ->
  max this <= MAX_PULSE_WIDTH ->
  pulse_of_value this 499 = max this
  /\ ticks (write g this 499).2 = usToTicks this (max this)
  /\ pulse_of_value this 500 = 500
  /\ ticks (write g this 500).2 = usToTicks this (min this).
Proof.
  intros Hch Hatt Hmin Hle Hmax.
  assert (H499 : pulse_of_value this 499 = max this).
  { unfold pulse_of_value. cbn -[arduino_map].
    apply arduino_map_180; (done || lia). }
  assert (H500 : pulse_of_value this 500 = 500) by reflexivity.
  unfold write. rewrite !writeMicroseconds_attached by done.
  rewrite H499, H500. cbn [snd ticks ticks_set].
  unfold constrain_pulse, MIN_PULSE_WIDTH in *.
  destruct (Z.ltb_spec (max this) (min this)); [lia|].
  destruct (Z.ltb_spec (max this) (max this)); [lia|].
  destruct (Z.ltb_spec 500 (min this)); [|lia].
  done.
Qed.

(** ** setTimerWidth *)

(** Narrowing the timer by [d] bits shifts the tick count left by [d]:
    the count is multiplied by [2 ^ d], where keeping the pulse width
    would need it divided. *)
Lemma setTimerWidth_narrower g this v :
  16 <= v < timer_width this -> timer_width this <= 20 ->
  ticks (setTimerWidth g this v).2
  = Int.wrap (ticks this * 2 ^ (timer_width this - v))
  /\ timer_width (setTimerWidth g this v).2 = v
  /\ timer_width_ticks (setTimerWidth g this v).2 = pow2 v.
Proof.
  intros Hv Hw. unfold setTimerWidth.
  destruct (Z.ltb_spec v 16); [lia|].
  destruct (Z.ltb_spec 20 v); [lia|].
  rewrite wrap_small by (unfold Int.min_signed, Int.max_signed; lia).
  destruct (Z.ltb_spec 0 (timer_width this - v)); [|lia].
  assert (Hshl : shl (ticks this) (timer_width this - v)
                 = Int.wrap (ticks this * 2 ^ (timer_width this - v))).
  { unfold shl.
    destruct (Z.leb_spec 0 (timer_width this - v)); [|lia].
    destruct (Z.ltb_spec (timer_width this - v) 32); [|lia].
    cbn [andb]. by rewrite Z.shiftl_mul_pow2 by lia. }
  destruct (_ && _); cbn [snd ticks timer_width timer_width_ticks
    ticks_set timer_width_set timer_width_ticks_set]; by rewrite Hshl.
Qed.

(** Widening the timer shifts right by the negative difference, a
    shift count outside [0, 31]: the new tick count is whatever the
    target makes of it. *)
Lemma setTimerWidth_wider g this v :
  timer_width this < v <= 20 -> 16 <= timer_width this ->
  ticks (setTimerWidth g this v).2
  = undefined (ShiftCount (ticks this) (timer_width this - v)).
Proof.
  intros Hv Hw. unfold setTimerWidth.
  destruct (Z.ltb_spec v 16); [lia|].
  destruct (Z.ltb_spec 20 v); [lia|].
  rewrite wrap_small by (unfold Int.min_signed, Int.max_signed; lia).
  destruct (Z.ltb_spec 0 (timer_width this - v)); [lia|].
  unfold shr.
  destruct (Z.leb_spec 0 (timer_width this - v)); [lia|].
  cbn [andb]. by destruct (_ && _).
Qed.

(** ** Whole runs *)

(** Every call keeps the invariants, so they hold along every run of calls
    on an object that holds a channel. *)
Lemma invoke_inv m st :
  pool_inv st.1 -> channel_ok st.2 -> servo_inv st.2 ->
  pool_inv (invoke m st).1 /\ channel_ok (invoke m st).2
  /\ servo_inv (invoke m st).2.
Proof.
  destruct st as [g this]. intros Hg Hc Hs. simpl in *.
  destruct m; simpl.
  - apply attach_min_max_inv; done.
  - apply attach_min_max_inv; done.
  - apply detach_inv; done.
  - apply write_inv; done.
  - apply writeMicroseconds_inv; done.
  - destruct (setTimerWidth_inv g this value Hg Hc Hs) as (?&?&?&?). done.
Qed.

Lemma run_inv ms : forall st,
  pool_inv st.1 -> channel_ok st.2 -> servo_inv st.2 ->
  pool_inv (run ms st).1 /\ channel_ok (run ms st).2
  /\ servo_inv (run ms st).2.
Proof.
  induction ms as [|m ms IH]; intros st Hg Hc Hs; [done|].
  destruct (invoke_inv m st Hg Hc Hs) as (?&?&?).
  apply (IH (invoke m st)); done.
Qed.

(** Constructing [MAX_SERVOS] objects in the initial state exhausts the
    pool. *)
Lemma construct_many_state n : forall g decl,
  (forall i, ~ reclaimable g i) ->
  0 <= ServoCount g -> ServoCount g + Z.of_nat n <= Z.of_nat MAX_SERVOS ->
  (forall i, ~ reclaimable (construct_many n g decl).1 i)
  /\ ServoCount (construct_many n g decl).1 = ServoCount g + Z.of_nat n.
Proof.
  induction n as [|n IH]; intros g decl Hnr H0 Hle.
  - simpl. split; [done | lia].
  - cbn [construct_many].
    rewrite Servo_Servo_fresh; [| by apply reuse_scan_None | lia].
    set (c := ServoCount g + 1).
    set (g1 := ChannelUsed_set c 1 (ServoCount_set c g)).
    specialize (IH g1 decl).
    destruct (construct_many n g1 decl) as [g2 l] eqn:E. simpl in *.
    destruct IH as [IH1 IH2]; [| unfold c; lia | unfold c; lia |].
    + intros i. unfold reclaimable, g1.
      apply (ChannelUsed_at_set_other _ _ _ _ (fun v => v <> -1));
        [lia | | lia].
      rewrite ChannelUsed_at_ServoCount_set. apply Hnr.
    + split; [done|]. rewrite IH2. unfold c. lia.
Qed.

(** A single-object sketch always ends in a state that satisfies the
    invariants, with the object on channel 1. *)
Lemma sketch_inv decl ms :
  (1 <= MAX_SERVOS)%nat ->
  pool_inv (sketch decl ms).1 /\ channel_ok (sketch decl ms).2
  /\ servo_inv (sketch decl ms).2.
Proof.
  intros HM. unfold sketch.
  destruct (Servo_Servo_inv initial decl pool_inv_initial) as (Hp & Hc & Hs).
  apply run_inv; [done | done |].
  apply Hs. rewrite Servo_Servo_fresh; simpl; [lia | | lia].
  apply reuse_scan_None. intros k _. apply initial_not_reclaimable.
Qed.

(** Once [attached] is true of an object it stays true, whatever is
    called on any object and whichever objects are constructed. *)
Lemma invoke_keeps_attached m st other :
  attached st.1 other = true -> attached (invoke m st).1 other = true.
Proof.
  destruct st as [g this]. rewrite !attached_iff. simpl. intros H.
  assert (Hset : forall i v cs, v <> 0 ->
            ChannelUsed_at (ChannelUsed_set i v (call cs g))
              (servoChannel other) <> 0).
  { intros i v cs Hv. apply ChannelUsed_set_keeps_used; [done|].
    by rewrite ChannelUsed_at_call. }
  destruct m; simpl;
    unfold attach, attach_min_max, detach, write, writeMicroseconds,
      setTimerWidth;
    repeat match goal with
      | |- context [if ?c then _ else _] => destruct c
      end; simpl;
    first [ exact H | by apply (Hset _ _ _) | idtac ].
  all: apply ChannelUsed_set_keeps_used; done.
Qed.

Lemma Servo_Servo_keeps_attached g decl other :
  attached g other = true ->
  attached (Servo_Servo g decl).1 other = true.
Proof.
  rewrite !attached_iff. intros H. unfold Servo_Servo.
  destruct (reuse_scan g 1 MAX_SERVOS) as [i|];
    [|destruct (ServoCount g <? Z.of_nat MAX_SERVOS)];
    cbn [servoChannel servoChannel_set];
    destruct (0 <? _); cbn [fst];
    first [ exact H | apply ChannelUsed_set_keeps_used; [lia | exact H] ].
Qed.

Lemma construct_many_exhausts decl :
  exhausted (construct_many MAX_SERVOS initial decl).1.
Proof.
  destruct (construct_many_state MAX_SERVOS initial decl) as [H1 H2];
    [apply initial_not_reclaimable | simpl; lia | simpl; lia |].
  split; [rewrite H2; simpl; lia | intros i _; apply H1].
Qed.

(** ** More on attach *)

(** X1: on an object that holds a channel, attach(pin, min, max) returns
    1, binds the pin, keeps the channel, and calls ledcSetup and
    ledcAttachPin for that channel.  The stored bounds satisfy
    min >= 500 and max <= 2500; an argument already on the right side of
    its bound is stored unchanged. *)
Theorem X1_attach_binds_and_bounds g this pin mn mx :
  1 <= servoChannel this <= Z.of_nat MAX_SERVOS ->
  let r := attach_min_max g this pin mn mx in
  r.2 = 1
  /\ pinNumber r.1.2 = pin
  /\ servoChannel r.1.2 = servoChannel this
  /\ MIN_PULSE_WIDTH <= min r.1.2
  /\ max r.1.2 <= MAX_PULSE_WIDTH
  /\ (MIN_PULSE_WIDTH <= mn -> min r.1.2 = mn)
  /\ (mx <= MAX_PULSE_WIDTH -> max r.1.2 = mx)
  /\ ledc r.1.1
     = ledc g ++ [ledcSetup (servoChannel this) REFRESH_CPS (timer_width r.1.2);
                  ledcAttachPin pin (servoChannel this)].
Proof.
  intros Hch. unfold attach_min_max.
  destruct (Z.leb_spec (servoChannel this) (Z.of_nat MAX_SERVOS)); [|lia].
  destruct (Z.ltb_spec 0 (servoChannel this)); [|lia].
  cbn [andb].
  destruct (pinNumber this <? 0);
    destruct (Z.ltb_spec mn MIN_PULSE_WIDTH);
    destruct (Z.ltb_spec MAX_PULSE_WIDTH mx);
    cbn; unfold MIN_PULSE_WIDTH, MAX_PULSE_WIDTH in *;
    repeat split; (reflexivity || lia).
Qed.

(** X2: attach(pin, min, max) succeeds exactly on an object whose channel
    is in [1, MAX_SERVOS]; on any other object it returns 0, changes
    neither the object nor the class variables and calls no driver
    function. *)
Theorem X2_attach_needs_a_channel g this pin mn mx :
  (1 <= servoChannel this <= Z.of_nat MAX_SERVOS
   /\ (attach_min_max g this pin mn mx).2 = 1)
  \/ (~ (1 <= servoChannel this <= Z.of_nat MAX_SERVOS)
      /\ attach_min_max g this pin mn mx = (g, this, 0)).
Proof.
  unfold attach_min_max.
  destruct (Z.leb_spec (servoChannel this) (Z.of_nat MAX_SERVOS));
    destruct (Z.ltb_spec 0 (servoChannel this)); cbn [andb].
  - left. split; [lia|]. by destruct (pinNumber this <? 0).
  - right. split; [lia | reflexivity].
  - right. split; [lia | reflexivity].
  - right. split; [lia | reflexivity].
Qed.

(** X3: attach on an object that is already bound to a pin (pinNumber >= 0)
    does not re-initialise it: the tick count and the timer width are
    kept, and ChannelUsed and ServoCount are untouched; only the pin and the
    bounds are replaced. *)
Theorem X3_attach_again_keeps_pulse g this pin mn mx :
  1 <= servoChannel this <= Z.of_nat MAX_SERVOS ->
  0 <= pinNumber this ->
  let r := attach_min_max g this pin mn mx in
  ticks r.1.2 = ticks this
  /\ timer_width r.1.2 = timer_width this
  /\ timer_width_ticks r.1.2 = timer_width_ticks this
  /\ ChannelUsed r.1.1 = ChannelUsed g
  /\ ServoCount r.1.1 = ServoCount g.
Proof.
  intros Hch Hpin. unfold attach_min_max.
  destruct (Z.leb_spec (servoChannel this) (Z.of_nat MAX_SERVOS)); [|lia].
  destruct (Z.ltb_spec 0 (servoChannel this)); [|lia].
  destruct (Z.ltb_spec (pinNumber this) 0); [lia|].
  cbn. done.
Qed.

(** X4: with ENFORCE_PINS defined, attach succeeds exactly when the
    object holds a channel in [1, MAX_SERVOS] and the pin is one of
    2, 4, 12-19, 21-23, 25-27, 32, 33; it then behaves as without the
    define.  In every other case it returns 0, changes neither the object
    nor the class variables and calls no driver function, so a pin outside
    the list is never bound. *)
Theorem X4_enforce_pins g this pin mn mx :
  let r := attach_min_max_ENFORCE_PINS g this pin mn mx in
  (recommended_pin pin = true
   <-> pin ∈ [2; 4; 12; 13; 14; 15; 16; 17; 18; 19; 21; 22; 23; 25; 26; 27;
              32; 33])
  /\ (r.2 = 1
      <-> 1 <= servoChannel this <= Z.of_nat MAX_SERVOS
          /\ recommended_pin pin = true)
  /\ (r.2 = 1 -> r = attach_min_max g this pin mn mx /\ pinNumber r.1.2 = pin)
  /\ (r.2 <> 1 -> r = (g, this, 0)).
Proof.
  intros r. split.
  - rewrite !elem_of_cons, elem_of_nil. unfold recommended_pin.
    rewrite !orb_true_iff, !andb_true_iff, !Z.eqb_eq, !Z.leb_le. lia.
  - unfold r, attach_min_max_ENFORCE_PINS, attach_min_max.
    destruct (Z.leb_spec (servoChannel this) (Z.of_nat MAX_SERVOS));
      destruct (Z.ltb_spec 0 (servoChannel this)); cbn [andb];
      [destruct (recommended_pin pin);
       [destruct (pinNumber this <? 0)|]|..];
      cbn; (split; [split; [intros; split; [lia | congruence]
                           | intros [? ?]; first [reflexivity | lia | congruence]]|]);
      (split; [intros; first [split; reflexivity | discriminate]
              | intros; first [reflexivity | congruence]]).
Qed.

(** ** More on the conversions *)

(** The conversions checked on every width and every valid pulse width. *)
Lemma conversion_table (this : Servo) (w us : Z) :
  16 <= w <= 20 ->
  timer_width_ticks this = pow2 w ->
  MIN_PULSE_WIDTH <= us <= MAX_PULSE_WIDTH ->
  let t := usToTicks this us in
  (us * 2 ^ w / REFRESH_USEC <= t <= us * 2 ^ w / REFRESH_USEC + 1)
  /\ (w <= 18 -> t = us * 2 ^ w / REFRESH_USEC)
  /\ (2 ^ w / 40 <= t <= 2 ^ w / 8)
  /\ (us - 1 <= ticksToUs this t <= us).
Proof.
  intros Hw Htw Hus.
  destruct this as [ch mn mx pin tw tk twt]; simpl in Htw; subst twt.
  set (s := fun w => mkServo ch mn mx pin tw tk (pow2 w)).
  change (let t := usToTicks (s w) us in
          (us * 2 ^ w / REFRESH_USEC <= t <= us * 2 ^ w / REFRESH_USEC + 1)
          /\ (w <= 18 -> t = us * 2 ^ w / REFRESH_USEC)
          /\ (2 ^ w / 40 <= t <= 2 ^ w / 8)
          /\ (us - 1 <= ticksToUs (s w) t <= us)).
  set (ok := fun w us =>
    let t := usToTicks (s w) us in
    let lo := us * 2 ^ w / REFRESH_USEC in
    let r := ticksToUs (s w) t in
    (lo <=? t) && (t <=? lo + 1) && ((18 <? w) || (t =? lo))
    && (2 ^ w / 40 <=? t) && (t <=? 2 ^ w / 8)
    && (us - 1 <=? r) && (r <=? us)).
  assert (Hall : forallb (fun w => forallb (ok w) (seqZ 500 2001))
                   (seqZ 16 5) = true)
    by (vm_compute; reflexivity).
  pose proof (forallb_seqZ _ _ _ Hall w ltac:(lia)) as Hrow.
  pose proof (forallb_seqZ _ _ _ Hrow us
                ltac:(unfold MIN_PULSE_WIDTH, MAX_PULSE_WIDTH in Hus; lia))
    as Hcell.
  unfold ok in Hcell. cbv zeta in Hcell |- *.
  apply andb_true_iff in Hcell as [Hcell H7].
  apply andb_true_iff in Hcell as [Hcell H6].
  apply andb_true_iff in Hcell as [Hcell H5].
  apply andb_true_iff in Hcell as [Hcell H4].
  apply andb_true_iff in Hcell as [Hcell H3].
  apply andb_true_iff in Hcell as [H1 H2].
  apply Z.leb_le in H1, H2, H4, H5, H6, H7.
  split; [lia|]. split; [|split; lia].
  intros Hle. apply orb_true_iff in H3 as [H3|H3].
  - apply Z.ltb_lt in H3. lia.
  - by apply Z.eqb_eq in H3.
Qed.

(** X5: for every timer width w in [16, 20] and every pulse width us in
    [500, 2500], the float computation of usToTicks is the exact quotient
    us * 2^w / 20000 rounded down, or one tick above it; at the widths 16,
    17 and 18 it is always the exact quotient rounded down. *)
Theorem X5_usToTicks_exact (this : Servo) (w us : Z) :
  16 <= w <= 20 ->
  timer_width_ticks this = pow2 w ->
  MIN_PULSE_WIDTH <= us <= MAX_PULSE_WIDTH ->
  (us * 2 ^ w / REFRESH_USEC <= usToTicks this us
   <= us * 2 ^ w / REFRESH_USEC + 1)
  /\ (w <= 18 -> usToTicks this us = us * 2 ^ w / REFRESH_USEC).
Proof.
  intros Hw Htw Hus.
  destruct (conversion_table this w us Hw Htw Hus) as (H1 & H2 & _).
  split; [exact H1 | exact H2].
Qed.

(** X6: for every timer width w in [16, 20], usToTicks is strictly
    increasing on [500, 2500], so distinct pulse widths get distinct tick
    counts, and the tick count is between 1/40 and 1/8 of the timer
    period 2^w. *)
Theorem X6_usToTicks_increasing (this : Servo) (w us us' : Z) :
  16 <= w <= 20 ->
  timer_width_ticks this = pow2 w ->
  MIN_PULSE_WIDTH <= us -> us < us' -> us' <= MAX_PULSE_WIDTH ->
  usToTicks this us < usToTicks this us'
  /\ 2 ^ w / 40 <= usToTicks this us
  /\ usToTicks this us' <= 2 ^ w / 8.
Proof.
  intros Hw Htw Hlo Hlt Hhi.
  destruct (conversion_table this w us Hw Htw ltac:(lia)) as (H1 & _ & H3 & _).
  destruct (conversion_table this w us' Hw Htw ltac:(lia)) as (H1' & _ & H3' & _).
  cbv zeta in *. split; [|lia].
  assert (HP : 3 * REFRESH_USEC <= 2 ^ w).
  { unfold REFRESH_USEC.
    pose proof (Z.pow_le_mono_r 2 16 w ltac:(lia) ltac:(lia)) as Hp.
    change (2 ^ 16) with 65536 in Hp. lia. }
  assert (Hstep : us * 2 ^ w / REFRESH_USEC + 3 <= us' * 2 ^ w / REFRESH_USEC).
  { rewrite <- Z.div_add by (unfold REFRESH_USEC; lia).
    apply Z.div_le_mono; [unfold REFRESH_USEC; lia | nia]. }
  lia.
Qed.

(** X7: on an attached object with 500 <= min <= max <= 2500 and a timer
    width in [16, 20], writeMicroseconds(v) followed by readMicroseconds()
    returns the value v clamped into [min, max], or one microsecond
    less. *)
Theorem X7_writeMicroseconds_readMicroseconds g this w v :
  servoChannel this <= Z.of_nat MAX_SERVOS ->
  attached g this = true ->
  16 <= w <= 20 -> timer_width_ticks this = pow2 w ->
  MIN_PULSE_WIDTH <= min this -> min this <= max this ->
  max this <= MAX_PULSE_WIDTH ->
  let st := writeMicroseconds g this v in
  min this <= constrain_pulse this v <= max this
  /\ (min this <= v <= max this -> constrain_pulse this v = v)
  /\ constrain_pulse this v - 1 <= readMicroseconds st.1 st.2
     <= constrain_pulse this v.
Proof.
  intros Hch Hatt Hw Htw Hmin Hle Hmax st.
  assert (Hc : min this <= constrain_pulse this v <= max this).
  { unfold constrain_pulse.
    destruct (Z.ltb_spec v (min this)); [lia|].
    destruct (Z.ltb_spec (max this) v); lia. }
  split; [exact Hc|]. split.
  - intros Hv. unfold constrain_pulse.
    destruct (Z.ltb_spec v (min this)); [lia|].
    destruct (Z.ltb_spec (max this) v); lia.
  - unfold st. rewrite writeMicroseconds_attached by done. cbn [fst snd].
    rewrite readMicroseconds_attached by done.
    destruct (conversion_table this w (constrain_pulse this v) Hw Htw
                ltac:(lia)) as (_ & _ & _ & Hrt).
    exact Hrt.
Qed.

(** The angle branch of write is linear interpolation rounded down. *)
Lemma arduino_map_angle a mn mx :
  0 <= a <= 180 ->
  MIN_PULSE_WIDTH <= mn -> mn <= mx -> mx <= MAX_PULSE_WIDTH ->
  arduino_map a 0 180 mn mx = mn + a * (mx - mn) / 180
  /\ mn <= mn + a * (mx - mn) / 180 <= mx.
Proof.
  unfold MIN_PULSE_WIDTH, MAX_PULSE_WIDTH. intros Ha H1 H2 H3.
  assert (Hq : 0 <= a * (mx - mn) / 180 <= mx - mn).
  { split; [apply Z.div_pos; nia|].
    apply Z.div_le_upper_bound; nia. }
  split; [|lia].
  unfold arduino_map, ldiv.
  assert (Hs : forall z, -3000000 <= z <= 3000000 -> Int.wrap z = z).
  { intros z Hz. apply wrap_small.
    unfold Int.min_signed, Int.max_signed. lia. }
  rewrite (Hs (180 - 0)), (Hs (mx - mn)), (Hs (a - 0)) by lia.
  rewrite (Hs ((a - 0) * (mx - mn))) by nia.
  destruct (Z.eqb_spec (180 - 0) 0); [lia|].
  replace (a - 0) with a by lia. replace (180 - 0) with 180 by lia.
  rewrite Z.quot_div_nonneg by nia.
  rewrite (Hs (a * (mx - mn) / 180)) by lia.
  rewrite Hs by lia. lia.
Qed.

(** X8: on an attached object with 500 <= min <= max <= 2500, write(v)
    with v < 500 takes v as an angle, clamps it to a in [0, 180] and
    stores the tick count of min + a * (max - min) / 180 (rounded down),
    a pulse width inside [min, max]; so write(0) is the pulse min and
    write(180) the pulse max. *)
Theorem X8_write_angle_interpolates g this v :
  servoChannel this <= Z.of_nat MAX_SERVOS ->
  attached g this = true ->
  MIN_PULSE_WIDTH <= min this -> min this <= max this ->
  max this <= MAX_PULSE_WIDTH ->
  v < MIN_PULSE_WIDTH ->
  let a := Z.max 0 (Z.min 180 v) in
  let us := min this + a * (max this - min this) / 180 in
  min this <= us <= max this
  /\ ticks (write g this v).2 = usToTicks this us
  /\ (v <= 0 -> us = min this)
  /\ (180 <= v -> us = max this).
Proof.
  intros Hch Hatt Hmin Hle Hmax Hv a us.
  assert (Ha : 0 <= a <= 180) by (unfold a; lia).
  destruct (arduino_map_angle a (min this) (max this) Ha Hmin Hle Hmax)
    as [Hmap Hin].
  fold us in Hmap, Hin.
  assert (Hp : pulse_of_value this v = us).
  { unfold pulse_of_value.
    destruct (Z.ltb_spec v MIN_PULSE_WIDTH); [|lia].
    rewrite <- Hmap. f_equal. unfold a.
    destruct (Z.ltb_spec v 0); [lia|].
    destruct (Z.ltb_spec 180 v); lia. }
  split; [exact Hin|]. split; [|split].
  - unfold write. rewrite writeMicroseconds_attached by done.
    cbn [snd ticks ticks_set]. rewrite Hp. f_equal.
    unfold constrain_pulse.
    destruct (Z.ltb_spec us (min this)); [lia|].
    destruct (Z.ltb_spec (max this) us); lia.
  - intros Hv0. unfold us. replace a with 0 by (unfold a; lia).
    rewrite Z.mul_0_l, Z.div_0_l by lia. lia.
  - intros Hv180. unfold us. replace a with 180 by (unfold a; lia).
    rewrite Z.mul_comm, Z.div_mul by lia. lia.
Qed.

(** ** What a call leaves alone *)

Lemma invoke_frame m st :
  servoChannel (invoke m st).2 = servoChannel st.2
  /\ ServoCount (invoke m st).1 = ServoCount st.1
  /\ (exists cs, ledc (invoke m st).1 = ledc st.1 ++ cs)
  /\ length (ChannelUsed (invoke m st).1) = length (ChannelUsed st.1)
  /\ forall k : nat, k <> Z.to_nat (servoChannel st.2) ->
       ChannelUsed (invoke m st).1 !! k = ChannelUsed st.1 !! k.
Proof.
  destruct st as [g this].
  assert (Hnil : exists cs : list ledc_call, ledc g = ledc g ++ cs)
    by (exists []; by rewrite app_nil_r).
  destruct m; cbn [invoke fst snd];
    unfold attach, attach_min_max, detach, write, writeMicroseconds,
      setTimerWidth;
    repeat match goal with
      | |- context [if ?c then _ else _] => destruct c
      end;
    cbn [fst snd servoChannel ServoCount ChannelUsed ledc call
         ChannelUsed_set pinNumber_set min_set max_set ticks_set
         timer_width_set timer_width_ticks_set];
    (split; [reflexivity|]); (split; [reflexivity|]);
    (split; [first [exact Hnil | eexists; reflexivity]|]);
    (split; [first [reflexivity | apply length_insert]|]);
    intros k Hk;
    first [reflexivity | apply list_lookup_insert_ne; congruence].
Qed.

(** X9: whatever sequence of attach, detach, write, writeMicroseconds and
    setTimerWidth calls is made on an object, its channel number never
    changes, ServoCount never changes, the driver-call log only grows, and
    no slot of ChannelUsed other than the object's own is written. *)
Theorem X9_calls_touch_only_own_slot ms : forall st,
  servoChannel (run ms st).2 = servoChannel st.2
  /\ ServoCount (run ms st).1 = ServoCount st.1
  /\ (exists cs, ledc (run ms st).1 = ledc st.1 ++ cs)
  /\ length (ChannelUsed (run ms st).1) = length (ChannelUsed st.1)
  /\ forall k : nat, k <> Z.to_nat (servoChannel st.2) ->
       ChannelUsed (run ms st).1 !! k = ChannelUsed st.1 !! k.
Proof.
  induction ms as [|m ms IH]; intros st.
  - simpl. repeat split; try reflexivity. exists []. by rewrite app_nil_r.
  - change (run (m :: ms) st) with (run ms (invoke m st)).
    destruct (IH (invoke m st)) as (H1 & H2 & [cs2 H3] & H4 & H5).
    destruct (invoke_frame m st) as (F1 & F2 & [cs1 F3] & F4 & F5).
    split; [congruence|]. split; [congruence|].
    split; [exists (cs1 ++ cs2); rewrite H3, F3; by rewrite app_assoc|].
    split; [congruence|].
    intros k Hk. rewrite H5 by congruence. by apply F5.
Qed.

(** ** detach twice *)

(** X10: detach on an attached object makes one driver call,
    ledcDetachPin of the bound pin, marks the slot -1 and sets pinNumber to
    -1.  A second detach is not a no-op: the object still counts as
    attached, so the driver is called again, with pin -1; the object and
    ChannelUsed stay as the first detach left them. *)
Theorem X10_detach_twice g this :
  length (ChannelUsed g) = S MAX_SERVOS ->
  1 <= servoChannel this <= Z.of_nat MAX_SERVOS ->
  attached g this = true ->
  let d1 := detach g this in
  let d2 := detach d1.1 d1.2 in
  ledc d1.1 = ledc g ++ [ledcDetachPin (pinNumber this)]
  /\ d1.2 = pinNumber_set (-1) this
  /\ ChannelUsed_at d1.1 (servoChannel this) = -1
  /\ ledc d2.1 = ledc d1.1 ++ [ledcDetachPin (-1)]
  /\ d2.2 = d1.2
  /\ ChannelUsed d2.1 = ChannelUsed d1.1
  /\ ServoCount d2.1 = ServoCount g.
Proof.
  intros Hlen Hch Hatt d1 d2.
  destruct (detach_keeps_attached g this Hlen Hch Hatt) as (Hr & Hatt1 & _).
  unfold d2. rewrite (detach_attached d1.1 d1.2 Hatt1).
  unfold d1 in *. rewrite (detach_attached g this Hatt) in *.
  cbn [fst snd] in *.
  split; [reflexivity|]. split; [reflexivity|]. split; [exact Hr|].
  split; [reflexivity|]. split; [reflexivity|]. split; [|reflexivity].
  cbn [ChannelUsed ChannelUsed_set call servoChannel pinNumber_set].
  apply list_insert_insert_eq.
Qed.

(** ** setTimerWidth *)

(** X11: setTimerWidth(v) stores v clamped into [16, 20] as the timer
    width and 2 to that power as the resolution, on every object; it never
    changes the channel, the pin, the bounds, ChannelUsed or ServoCount.
    When the clamped value is the current width the tick count is kept.
    On an attached object it makes exactly the three driver calls detach
    pin, setup with the new width, attach pin; otherwise none. *)
Theorem X11_setTimerWidth_clamps g this v :
  let w := Z.max 16 (Z.min 20 v) in
  let st := setTimerWidth g this v in
  readTimerWidth st.2 = w
  /\ timer_width_ticks st.2 = pow2 w
  /\ servoChannel st.2 = servoChannel this
  /\ pinNumber st.2 = pinNumber this
  /\ min st.2 = min this /\ max st.2 = max this
  /\ ChannelUsed st.1 = ChannelUsed g
  /\ ServoCount st.1 = ServoCount g
  /\ (timer_width this = w -> ticks st.2 = ticks this)
  /\ ledc st.1
     = ledc g
       ++ (if (servoChannel this <=? Z.of_nat MAX_SERVOS) && attached g this
           then [ledcDetachPin (pinNumber this);
                 ledcSetup (servoChannel this) REFRESH_CPS w;
                 ledcAttachPin (pinNumber this) (servoChannel this)]
           else []).
Proof.
  intros w st. unfold st, setTimerWidth, readTimerWidth.
  set (c := if v <? 16 then 16 else if 20 <? v then 20 else v).
  assert (Hc : c = w).
  { unfold c, w. destruct (Z.ltb_spec v 16); [lia|].
    destruct (Z.ltb_spec 20 v); lia. }
  cbv zeta. rewrite Hc.
  set (t := if 0 <? Int.wrap (timer_width this - w)
            then ticks_set (shl (ticks this) (Int.wrap (timer_width this - w))) this
            else ticks_set (shr (ticks this) (Int.wrap (timer_width this - w))) this).
  assert (Ht : servoChannel t = servoChannel this
               /\ pinNumber t = pinNumber this
               /\ min t = min this /\ max t = max this
               /\ (timer_width this = w -> ticks t = ticks this)).
  { unfold t. destruct (0 <? Int.wrap (timer_width this - w)) eqn:E;
      cbn; repeat split; try reflexivity.
    - intros Hw. rewrite Hw, Z.sub_diag in E. discriminate.
    - intros Hw. rewrite Hw, Z.sub_diag. reflexivity. }
  destruct Ht as (T1 & T2 & T3 & T4 & T5).
  change (attached g (timer_width_ticks_set (pow2 (timer_width (timer_width_set w t)))
                        (timer_width_set w t)))
    with (attached g t).
  replace (attached g t) with (attached g this)
    by (unfold attached; by rewrite T1).
  cbn [servoChannel timer_width timer_width_set timer_width_ticks_set].
  rewrite T1.
  destruct ((servoChannel this <=? Z.of_nat MAX_SERVOS) && attached g this);
    cbn; rewrite ?T1, ?T2, ?app_nil_r; repeat split; done.
Qed.

(** ** The constructor *)

(** X12: the constructor makes no driver call and raises ServoCount by at
    most one.  An object that got a channel has the default members: tick
    count DEFAULT_PULSE_WIDTH_TICKS, timer width 16 with resolution 2^16,
    bounds 544/2400 and no pin (-1); it already counts as attached
    although attach was never called.  An object that got no channel
    leaves the class variables as they were. *)
Theorem X12_constructor_defaults g decl :
  pool_inv g ->
  let g' := (Servo_Servo g decl).1 in
  let s := (Servo_Servo g decl).2 in
  ledc g' = ledc g
  /\ ServoCount g <= ServoCount g' <= ServoCount g + 1
  /\ 0 <= servoChannel s <= Z.of_nat MAX_SERVOS
  /\ (0 < servoChannel s ->
      s = mkServo (servoChannel s) DEFAULT_uS_LOW DEFAULT_uS_HIGH (-1)
            DEFAULT_TIMER_WIDTH DEFAULT_PULSE_WIDTH_TICKS
            (pow2 DEFAULT_TIMER_WIDTH)
      /\ attached g' s = true)
  /\ (servoChannel s = 0 -> g' = g).
Proof.
  intros Hinv g' s. pose proof Hinv as (Hc & Hlen & H0).
  destruct (Servo_Servo_inv g decl Hinv) as (_ & Hok & Hatt).
  fold s g' in Hok, Hatt. unfold channel_ok in Hok.
  assert (Hrest :
    ledc g' = ledc g /\ ServoCount g <= ServoCount g' <= ServoCount g + 1
    /\ (0 < servoChannel s ->
        s = mkServo (servoChannel s) DEFAULT_uS_LOW DEFAULT_uS_HIGH (-1)
              DEFAULT_TIMER_WIDTH DEFAULT_PULSE_WIDTH_TICKS
              (pow2 DEFAULT_TIMER_WIDTH))
    /\ (servoChannel s = 0 -> g' = g)).
  { unfold g', s.
    destruct (reuse_scan g 1 MAX_SERVOS) as [i|] eqn:E.
    - pose proof (reuse_scan_Some _ _ _ _ E) as (Hi & _ & _).
      rewrite (Servo_Servo_reuse g decl i) by (done || lia). cbn.
      repeat split; (reflexivity || lia).
    - destruct (Z.lt_ge_cases (ServoCount g) (Z.of_nat MAX_SERVOS)).
      + rewrite Servo_Servo_fresh by (done || lia). cbn.
        repeat split; (reflexivity || lia).
      + rewrite Servo_Servo_full by (done || lia). cbn.
        repeat split; (reflexivity || lia). }
  destruct Hrest as (R1 & R2 & R3 & R4).
  split; [exact R1|]. split; [exact R2|]. split; [exact Hok|].
  split; [|exact R4].
  intros Hpos. split; [exact (R3 Hpos) | exact (proj2 (Hatt Hpos))].
Qed.

(** ** The slot tags in reachable states *)

Lemma pool_tagged_initial : pool_tagged initial.
Proof.
  split; [apply pool_inv_initial|]. intros i Hi. simpl. split; [lia|].
  intros _. unfold ChannelUsed_at, initial. cbn [ChannelUsed].
  rewrite lookup_replicate_2 by lia. reflexivity.
Qed.

Lemma pool_tagged_call g cs : pool_tagged g -> pool_tagged (call cs g).
Proof. done. Qed.

Lemma pool_tagged_set g c v cs :
  pool_tagged g -> 1 <= c <= ServoCount g -> v = 1 \/ v = -1 ->
  pool_tagged (ChannelUsed_set c v (call cs g)).
Proof.
  intros [Hinv Htag] Hc Hv. pose proof Hinv as (Hcnt & Hlen & H0).
  split; [apply pool_inv_ChannelUsed_set; [lia | done]|].
  intros i Hi. cbn [ServoCount ChannelUsed_set call].
  destruct (decide (i = c)) as [->|Hne].
  - rewrite ChannelUsed_at_set_eq by (cbn; rewrite ?Hlen; lia).
    split; [intros _; exact Hv | lia].
  - rewrite ChannelUsed_at_set_ne by lia. apply (Htag i Hi).
Qed.

(** The class variables after a call: untouched, or with driver calls
    logged, or also with the object's own slot set to 1 or -1. *)
Lemma invoke_globals m g this :
  pool_inv g -> 0 <= servoChannel this ->
  (invoke m (g, this)).1 = g
  \/ (exists cs, (invoke m (g, this)).1 = call cs g)
  \/ (exists cs v, (v = 1 \/ v = -1) /\ 1 <= servoChannel this
        /\ (invoke m (g, this)).1
           = ChannelUsed_set (servoChannel this) v (call cs g)).
Proof.
  intros (_ & _ & H0) Hch.
  assert (Hdet : attached g this = true -> 1 <= servoChannel this).
  { intros Hatt. apply attached_iff in Hatt.
    destruct (decide (servoChannel this = 0)) as [E|]; [|lia].
    rewrite E in Hatt. done. }
  destruct m; cbn [invoke fst];
    unfold attach, attach_min_max, detach, write, writeMicroseconds,
      setTimerWidth.
  1,2: destruct (Z.leb_spec (servoChannel this) (Z.of_nat MAX_SERVOS));
       destruct (Z.ltb_spec 0 (servoChannel this)); cbn [andb fst];
       try (left; reflexivity);
       destruct (pinNumber this <? 0); cbn [fst];
       [ right; right; eexists _, 1; split; [by left|]; split; [lia|];
         reflexivity
       | right; left; eexists; reflexivity ].
  - destruct (attached g this) eqn:Hatt; [|left; reflexivity].
    right; right. eexists _, (-1). split; [by right|].
    split; [by apply Hdet | reflexivity].
  - destruct (_ && _); [right; left; eexists; reflexivity | left; reflexivity].
  - destruct (_ && _); [right; left; eexists; reflexivity | left; reflexivity].
  - cbv zeta. destruct (_ && _);
      [right; left; eexists; reflexivity | left; reflexivity].
Qed.

Lemma invoke_tagged m g this :
  pool_tagged g -> owned g this -> pool_tagged (invoke m (g, this)).1.
Proof.
  intros Htag [Hlo Hhi].
  destruct (invoke_globals m g this (proj1 Htag) Hlo)
    as [->|[[cs ->]|(cs & v & Hv & Hch & ->)]].
  - exact Htag.
  - by apply pool_tagged_call.
  - apply pool_tagged_set; [done | lia | done].
Qed.

(** The constructor keeps the tags, never lowers ServoCount, and the slot
    it hands out was not marked in use. *)
Lemma Servo_Servo_tagged g decl :
  pool_tagged g ->
  pool_tagged (Servo_Servo g decl).1
  /\ owned (Servo_Servo g decl).1 (Servo_Servo g decl).2
  /\ ServoCount g <= ServoCount (Servo_Servo g decl).1
  /\ (0 < servoChannel (Servo_Servo g decl).2 ->
      ChannelUsed_at g (servoChannel (Servo_Servo g decl).2) <> 1
      /\ ChannelUsed_at (Servo_Servo g decl).1
           (servoChannel (Servo_Servo g decl).2) = 1).
Proof.
  intros [Hinv Htag]. pose proof Hinv as (Hcnt & Hlen & H0).
  destruct (reuse_scan g 1 MAX_SERVOS) as [i|] eqn:E.
  - pose proof (reuse_scan_Some _ _ _ _ E) as (Hi & Hr & _).
    rewrite (Servo_Servo_reuse g decl i) by (done || lia).
    cbn [fst snd servoChannel plausible_values servoChannel_set
         timer_width_ticks_set max_set min_set pinNumber_set timer_width_set
         ticks_set].
    assert (Hiu : i <= ServoCount g).
    { destruct (Z.le_gt_cases i (ServoCount g)); [done|].
      destruct (Htag i ltac:(lia)) as [_ Hz].
      unfold reclaimable in Hr. rewrite Hz in Hr by lia. discriminate. }
    split.
    + split; [apply pool_inv_ChannelUsed_set; [lia | done]|].
      intros j Hj. cbn [ServoCount ChannelUsed_set].
      destruct (decide (j = i)) as [->|Hne].
      * rewrite ChannelUsed_at_set_eq by (rewrite ?Hlen; lia).
        split; [by left | lia].
      * rewrite ChannelUsed_at_set_ne by lia. apply (Htag j Hj).
    + split; [unfold owned; cbn; lia|]. split; [cbn; lia|].
      intros _. unfold reclaimable in Hr. rewrite Hr.
      split; [discriminate|].
      apply ChannelUsed_at_set_eq; [lia | rewrite Hlen; lia].
  - destruct (Z.lt_ge_cases (ServoCount g) (Z.of_nat MAX_SERVOS)).
    + rewrite Servo_Servo_fresh by (done || lia).
      cbn [fst snd servoChannel plausible_values servoChannel_set
           timer_width_ticks_set max_set min_set pinNumber_set
           timer_width_set ticks_set].
      set (c := ServoCount g + 1).
      assert (Hlen' : length (ChannelUsed (ServoCount_set c g)) = S MAX_SERVOS)
        by exact Hlen.
      split.
      * split.
        -- apply pool_inv_ChannelUsed_set; [unfold c; lia|].
           unfold pool_inv, ServoCount_set, ChannelUsed_at in *; cbn.
           repeat split; (done || lia).
        -- intros j Hj. cbn [ServoCount ChannelUsed_set ServoCount_set].
           destruct (decide (j = c)) as [->|Hne].
           ++ rewrite ChannelUsed_at_set_eq by (rewrite ?Hlen'; unfold c; lia).
              split; [by left | lia].
           ++ rewrite ChannelUsed_at_set_ne by (unfold c in *; lia).
              rewrite ChannelUsed_at_ServoCount_set.
              destruct (Htag j Hj) as [Hu Hz].
              split; [intros; apply Hu; unfold c in *; lia
                     | intros; apply Hz; unfold c in *; lia].
      * split; [unfold owned; cbn; unfold c; lia|].
        split; [cbn; unfold c; lia|].
        intros _. split.
        -- destruct (Htag c ltac:(unfold c; lia)) as [_ Hz].
           rewrite Hz by (unfold c; lia). discriminate.
        -- apply ChannelUsed_at_set_eq; [unfold c; lia|].
           rewrite Hlen'. unfold c. lia.
    + rewrite Servo_Servo_full by (done || lia). cbn.
      split; [by split|]. split; [unfold owned; cbn; lia|].
      split; [lia | lia].
Qed.

Lemma attached_same_channel g s s' :
  servoChannel s = servoChannel s' -> attached g s = attached g s'.
Proof. unfold attached. by intros ->. Qed.

(** What holds of the class variables and of every object in every
    reachable state. *)
Lemma reachable_invariants g objs :
  reachable g objs ->
  pool_tagged g
  /\ Forall (fun s => owned g s
                      /\ (0 < servoChannel s ->
                          servo_inv s /\ attached g s = true)) objs.
Proof.
  induction 1 as [|g objs decl Hreach [Htag Hall]
                   |g objs i this m Hreach [Htag Hall] Hi].
  - split; [apply pool_tagged_initial | constructor].
  - destruct (Servo_Servo_tagged g decl Htag) as (Htag' & Hown & Hmono & _).
    destruct (Servo_Servo_inv g decl (proj1 Htag)) as (_ & _ & Hnew).
    split; [exact Htag'|].
    apply Forall_app. split.
    + eapply Forall_impl; [exact Hall|].
      intros s [[Hlo Hhi] Hs]. split; [unfold owned; lia|].
      intros Hpos. destruct (Hs Hpos) as [Hsi Hatt].
      split; [exact Hsi | by apply Servo_Servo_keeps_attached].
    + constructor; [|constructor]. split; [exact Hown | exact Hnew].
  - pose proof (invoke_tagged m g this Htag) as Htag'.
    destruct (invoke_frame m (g, this)) as (Fch & Fcnt & _).
    cbn [fst snd] in Fch, Fcnt.
    assert (Hthis : owned g this
                    /\ (0 < servoChannel this ->
                        servo_inv this /\ attached g this = true)).
    { rewrite Forall_lookup in Hall. exact (Hall i this Hi). }
    destruct Hthis as [Hown Hs].
    split; [by apply Htag'|].
    apply Forall_insert.
    + eapply Forall_impl; [exact Hall|].
      intros s [[Hlo Hhi] Hs']. split; [unfold owned; lia|].
      intros Hpos. destruct (Hs' Hpos) as [Hsi Hatt].
      split; [exact Hsi|].
      by apply (invoke_keeps_attached m (g, this) s).
    + split; [unfold owned in *; lia|].
      rewrite Fch. intros Hpos. destruct (Hs Hpos) as [Hsi Hatt].
      assert (Hok : channel_ok this).
      { destruct Htag as [(Hcnt & _) _]. unfold channel_ok, owned in *. lia. }
      destruct (invoke_inv m (g, this) (proj1 Htag) Hok Hsi) as (_ & _ & Hsi').
      split; [exact Hsi'|].
      rewrite (attached_same_channel _ _ this) by exact Fch.
      by apply (invoke_keeps_attached m (g, this) this).
Qed.

(** X13: in every state a program can reach by constructing objects and
    calling their methods, ServoCount is in [0, MAX_SERVOS], and every
    object has a channel in [0, ServoCount]; attached() is true of an
    object exactly when its channel is not 0, whether or not attach or
    detach was ever called; and an object with a channel has
    min >= 500, max <= 2500, a timer width in [16, 20] and the
    resolution 2^width. *)
Theorem X13_reachable_states g objs s :
  reachable g objs -> s ∈ objs ->
  0 <= ServoCount g <= Z.of_nat MAX_SERVOS
  /\ 0 <= servoChannel s <= ServoCount g
  /\ (attached g s = true <-> 0 < servoChannel s)
  /\ (0 < servoChannel s ->
      MIN_PULSE_WIDTH <= min s /\ max s <= MAX_PULSE_WIDTH
      /\ 16 <= timer_width s <= 20
      /\ timer_width_ticks s = pow2 (timer_width s)).
Proof.
  intros Hreach Hs.
  destruct (reachable_invariants g objs Hreach) as [[Hinv _] Hall].
  rewrite Forall_forall in Hall. destruct (Hall s Hs) as [Hown Hpos].
  pose proof Hinv as (Hcnt & _ & H0).
  split; [exact Hcnt|]. split; [exact Hown|]. split.
  - split.
    + intros Hatt. apply attached_iff in Hatt.
      destruct (decide (servoChannel s = 0)) as [E|]; [|unfold owned in Hown; lia].
      rewrite E in Hatt. done.
    + intros H. exact (proj2 (Hpos H)).
  - intros H. exact (proj1 (Hpos H)).
Qed.

(** X14: in every reachable state the constructor never hands out a
    channel whose slot is marked in use (1): the slot of the channel it
    returns was -1 (given back by detach) or 0 (never used), and is 1
    afterwards; slots are 0 exactly above ServoCount. *)
Theorem X14_constructor_never_takes_in_use g objs decl :
  reachable g objs ->
  let s := (Servo_Servo g decl).2 in
  (0 < servoChannel s ->
   (ChannelUsed_at g (servoChannel s) = -1
    \/ ChannelUsed_at g (servoChannel s) = 0)
   /\ ChannelUsed_at (Servo_Servo g decl).1 (servoChannel s) = 1)
  /\ (forall i, 1 <= i <= Z.of_nat MAX_SERVOS ->
        (ChannelUsed_at g i = 0 <-> ServoCount g < i)).
Proof.
  intros Hreach s.
  destruct (reachable_invariants g objs Hreach) as [Htag _].
  destruct (Servo_Servo_tagged g decl Htag) as (_ & Hown & _ & Hnew).
  destruct (Servo_Servo_inv g decl (proj1 Htag)) as (_ & Hok & _).
  fold s in Hown, Hnew, Hok. destruct Htag as [Hinv Htag].
  split.
  - intros Hpos. destruct (Hnew Hpos) as [Hne Hone]. split; [|exact Hone].
    unfold channel_ok in Hok.
    destruct (Htag (servoChannel s) ltac:(lia)) as [Hu Hz].
    destruct (Z.le_gt_cases (servoChannel s) (ServoCount g)) as [Hle|Hgt].
    + destruct (Hu Hle) as [H1|H1]; [done | by left].
    + right. apply Hz. lia.
  - intros i Hi. destruct (Htag i Hi) as [Hu Hz]. split.
    + intros H0. destruct (Z.le_gt_cases i (ServoCount g)) as [Hle|Hgt]; [|lia].
      destruct (Hu Hle) as [H1|H1]; rewrite H1 in H0; discriminate.
    + exact Hz.
Qed.

(** X15: when the pool is exhausted, detaching an object that holds a
    channel and constructing a new object gives the new object exactly
    that channel, and ServoCount stays as it was. *)
Theorem X15_reuse_at_capacity g a decl :
  exhausted g ->
  length (ChannelUsed g) = S MAX_SERVOS ->
  1 <= servoChannel a <= Z.of_nat MAX_SERVOS ->
  attached g a = true ->
  let c := Servo_Servo (detach g a).1 decl in
  servoChannel c.2 = servoChannel a
  /\ ServoCount c.1 = ServoCount g
  /\ ChannelUsed_at c.1 (servoChannel a) = 1.
Proof.
  intros [_ Hnone] Hlen Hch Hatt c.
  destruct (detach_slots g a Hlen Hch Hatt) as [Hr Hother].
  assert (Hscan : reuse_scan (detach g a).1 1 MAX_SERVOS = Some (servoChannel a)).
  { apply reuse_scan_lowest; [lia | exact Hr|].
    intros k Hk Hrk. apply (Hnone k); [lia|].
    unfold reclaimable in *. by rewrite <- Hother by lia. }
  unfold c. rewrite (Servo_Servo_reuse _ decl (servoChannel a)) by (lia || done).
  cbn [fst snd]. split; [reflexivity|]. split.
  - rewrite detach_attached by done. reflexivity.
  - apply ChannelUsed_at_set_eq; [lia|].
    rewrite detach_attached by done. cbn. rewrite length_insert, Hlen. lia.
Qed.

(** X16: nothing stops two objects from holding the same channel.  After
    object a is detached and a new object b reclaims a's channel (no lower
    slot being reclaimable), attach on a still succeeds: a and b then
    hold the same channel number, both count as attached, and a
    writeMicroseconds on either one is a ledcWrite to that one channel. *)
Theorem X16_reattach_shares_channel g a decl pin v :
  length (ChannelUsed g) = S MAX_SERVOS ->
  1 <= servoChannel a <= Z.of_nat MAX_SERVOS ->
  attached g a = true ->
  (forall k, 1 <= k < servoChannel a -> ~ reclaimable g k) ->
  let d := detach g a in
  let c := Servo_Servo d.1 decl in
  let r := attach c.1 d.2 pin in
  r.2 = 1
  /\ servoChannel c.2 = servoChannel a
  /\ servoChannel r.1.2 = servoChannel a
  /\ attached r.1.1 r.1.2 = true
  /\ attached r.1.1 c.2 = true
  /\ (exists t, ledc (writeMicroseconds r.1.1 r.1.2 v).1
                = ledc r.1.1 ++ [ledcWrite (servoChannel a) t])
  /\ (exists t, ledc (writeMicroseconds r.1.1 c.2 v).1
                = ledc r.1.1 ++ [ledcWrite (servoChannel a) t]).
Proof.
  intros Hlen Hch Hatt Hlow d c r.
  destruct (detach_slots g a Hlen Hch Hatt) as [Hr Hother].
  assert (Hscan : reuse_scan d.1 1 MAX_SERVOS = Some (servoChannel a)).
  { apply reuse_scan_lowest; [lia | exact Hr|].
    intros k Hk Hrk. apply (Hlow k Hk).
    unfold reclaimable in *. by rewrite <- Hother by lia. }
  assert (Hc : c = (ChannelUsed_set (servoChannel a) 1 d.1,
                    plausible_values (servoChannel_set (servoChannel a) decl))).
  { unfold c. apply Servo_Servo_reuse; [lia | done]. }
  assert (Hd : d = (ChannelUsed_set (servoChannel a) (-1)
                      (call [ledcDetachPin (pinNumber a)] g),
                    pinNumber_set (-1) a))
    by (unfold d; by apply detach_attached).
  assert (Hcb : servoChannel c.2 = servoChannel a) by (rewrite Hc; reflexivity).
  assert (Hda : servoChannel d.2 = servoChannel a) by (rewrite Hd; reflexivity).
  assert (Hattc : attached c.1 c.2 = true).
  { apply attached_iff. rewrite Hcb, Hc. cbn [fst].
    rewrite ChannelUsed_at_set_eq; [lia | lia |].
    rewrite Hd. cbn. rewrite length_insert, Hlen. lia. }
  destruct (attach_min_max_bounds c.1 d.2 pin DEFAULT_uS_LOW DEFAULT_uS_HIGH
              ltac:(rewrite Hda; lia)) as (Hret & _).
  fold (attach c.1 d.2 pin) in Hret. fold r in Hret.
  destruct (invoke_frame (Call_attach pin) (c.1, d.2)) as (Fch & _).
  cbn [invoke fst snd] in Fch. fold r in Fch.
  assert (Hra : servoChannel r.1.2 = servoChannel a) by congruence.
  assert (Hattb : attached r.1.1 c.2 = true)
    by (apply (invoke_keeps_attached (Call_attach pin) (c.1, d.2) c.2 Hattc)).
  assert (Hatta : attached r.1.1 r.1.2 = true).
  { rewrite (attached_same_channel _ _ c.2) by congruence. exact Hattb. }
  split; [exact Hret|]. split; [exact Hcb|]. split; [exact Hra|].
  split; [exact Hatta|]. split; [exact Hattb|]. split.
  - rewrite writeMicroseconds_attached by (rewrite ?Hra; done || lia).
    rewrite Hra. eexists. reflexivity.
  - rewrite writeMicroseconds_attached by (rewrite ?Hcb; done || lia).
    rewrite Hcb. eexists. reflexivity.
Qed.

(** ** Reading back degrees *)

(** The degree branch of read is linear interpolation rounded down. *)
Lemma arduino_map_degrees x mn mx :
  MIN_PULSE_WIDTH <= mn -> mn < mx -> mx <= MAX_PULSE_WIDTH ->
  mn <= x <= mx + 1 ->
  arduino_map x mn mx 0 180 = (x - mn) * 180 / (mx - mn).
Proof.
  unfold MIN_PULSE_WIDTH, MAX_PULSE_WIDTH. intros H1 H2 H3 Hx.
  assert (Hq : 0 <= (x - mn) * 180 / (mx - mn) <= 360000).
  { split; [apply Z.div_pos; nia|].
    apply Z.div_le_upper_bound; nia. }
  unfold arduino_map, ldiv.
  assert (Hs : forall z, -3000000 <= z <= 3000000 -> Int.wrap z = z).
  { intros z Hz. apply wrap_small.
    unfold Int.min_signed, Int.max_signed. lia. }
  rewrite (Hs (180 - 0)), (Hs (mx - mn)), (Hs (x - mn)) by lia.
  rewrite (Hs ((x - mn) * (180 - 0))) by nia.
  destruct (Z.eqb_spec (mx - mn) 0); [lia|].
  replace (180 - 0) with 180 by lia.
  rewrite Z.quot_div_nonneg by nia.
  rewrite (Hs ((x - mn) * 180 / (mx - mn))) by lia.
  rewrite Hs by lia. lia.
Qed.

(** What read returns right after a writeMicroseconds on an attached
    object: the interpolation of the clamped value, or of one microsecond
    more. *)
Lemma read_after_writeMicroseconds g this w v :
  servoChannel this <= Z.of_nat MAX_SERVOS ->
  attached g this = true ->
  16 <= w <= 20 -> timer_width_ticks this = pow2 w ->
  MIN_PULSE_WIDTH <= min this -> min this < max this ->
  max this <= MAX_PULSE_WIDTH ->
  exists x,
    constrain_pulse this v <= x <= constrain_pulse this v + 1
    /\ read (writeMicroseconds g this v).1 (writeMicroseconds g this v).2
       = (x - min this) * 180 / (max this - min this).
Proof.
  intros Hch Hatt Hw Htw Hmin Hlt Hmax.
  assert (Hc : min this <= constrain_pulse this v <= max this).
  { unfold constrain_pulse.
    destruct (Z.ltb_spec v (min this)); [lia|].
    destruct (Z.ltb_spec (max this) v); lia. }
  rewrite writeMicroseconds_attached by done. cbn [fst snd].
  unfold read. rewrite readMicroseconds_attached by done.
  cbn [ticks ticks_set min max].
  change (ticksToUs (ticks_set ?t this)) with (ticksToUs this).
  destruct (conversion_table this w (constrain_pulse this v) Hw Htw
              ltac:(lia)) as (_ & _ & _ & Hrt).
  cbv zeta in Hrt.
  set (rm := ticksToUs this (usToTicks this (constrain_pulse this v))) in *.
  unfold MIN_PULSE_WIDTH, MAX_PULSE_WIDTH in *.
  rewrite wrap_small by (unfold Int.min_signed, Int.max_signed; lia).
  exists (rm + 1). split; [lia|].
  apply arduino_map_degrees; unfold MIN_PULSE_WIDTH, MAX_PULSE_WIDTH; lia.
Qed.

(** X17: on an attached object whose bounds satisfy 500 <= min,
    max <= 2500 and max - min > 180, at any timer width in [16, 20],
    read() after write(v) is an angle in [0, 180], whatever v is. *)
Theorem X17_read_is_an_angle g this w v :
  servoChannel this <= Z.of_nat MAX_SERVOS ->
  attached g this = true ->
  16 <= w <= 20 -> timer_width_ticks this = pow2 w ->
  MIN_PULSE_WIDTH <= min this -> 180 < max this - min this ->
  max this <= MAX_PULSE_WIDTH ->
  0 <= read (write g this v).1 (write g this v).2 <= 180.
Proof.
  intros Hch Hatt Hw Htw Hmin Hd Hmax. unfold write.
  set (u := pulse_of_value this v).
  destruct (read_after_writeMicroseconds g this w u Hch Hatt Hw Htw Hmin
              ltac:(lia) Hmax) as (x & Hx & ->).
  assert (Hc : min this <= constrain_pulse this u <= max this).
  { unfold constrain_pulse.
    destruct (Z.ltb_spec u (min this)); [lia|].
    destruct (Z.ltb_spec (max this) u); lia. }
  split.
  - apply Z.div_pos; nia.
  - assert ((x - min this) * 180 / (max this - min this) < 181); [|lia].
    apply Z.div_lt_upper_bound; nia.
Qed.

(** X18: on an attached object whose bounds satisfy 500 <= min,
    max <= 2500 and max - min >= 180, at any timer width in [16, 20],
    write(angle) followed by read() returns a value within one degree of
    angle, for every angle in [0, 180]. *)
Theorem X18_write_read_any_bounds g this w angle :
  servoChannel this <= Z.of_nat MAX_SERVOS ->
  attached g this = true ->
  16 <= w <= 20 -> timer_width_ticks this = pow2 w ->
  MIN_PULSE_WIDTH <= min this -> 180 <= max this - min this ->
  max this <= MAX_PULSE_WIDTH ->
  0 <= angle <= 180 ->
  Z.abs (read (write g this angle).1 (write g this angle).2 - angle) <= 1.
Proof.
  intros Hch Hatt Hw Htw Hmin Hd Hmax Ha. unfold write.
  destruct (arduino_map_angle angle (min this) (max this) Ha Hmin
              ltac:(lia) Hmax) as [Hmap Hin].
  assert (Hp : pulse_of_value this angle
               = min this + angle * (max this - min this) / 180).
  { unfold pulse_of_value, MIN_PULSE_WIDTH.
    destruct (Z.ltb_spec angle 500); [|lia].
    destruct (Z.ltb_spec angle 0); [lia|].
    destruct (Z.ltb_spec 180 angle); [lia|]. exact Hmap. }
  destruct (read_after_writeMicroseconds g this w (pulse_of_value this angle)
              Hch Hatt Hw Htw Hmin ltac:(lia) Hmax) as (x & Hx & ->).
  rewrite Hp in Hx.
  assert (Hcl : constrain_pulse this
                  (min this + angle * (max this - min this) / 180)
                = min this + angle * (max this - min this) / 180).
  { unfold constrain_pulse.
    destruct (Z.ltb_spec (min this + angle * (max this - min this) / 180)
                (min this)); [lia|].
    destruct (Z.ltb_spec (max this)
                (min this + angle * (max this - min this) / 180)); lia. }
  rewrite Hcl in Hx.
  set (d := max this - min this) in *.
  set (q := angle * d / 180) in *.
  assert (Hq : 180 * q <= angle * d < 180 * q + 180).
  { unfold q. pose proof (Z.mul_div_le (angle * d) 180 ltac:(lia)).
    pose proof (Z.mul_succ_div_gt (angle * d) 180 ltac:(lia)). lia. }
  assert (Hlo : angle - 1 <= (x - min this) * 180 / d)
    by (apply Z.div_le_lower_bound; nia).
  assert (Hhi : (x - min this) * 180 / d <= angle + 1)
    by (apply Z.div_le_upper_bound; nia).
  lia.
Qed.

End Target.

(** ** Concrete runs on the ESP32 *)

(** C4 (the code at the failing input): a sketch constructs a Servo,
    attaches pin 13, writes 1500 us and detaches.  The slot is then
    marked reclaimable (-1) and the pin is cleared, yet attached() is
    still true and readMicroseconds() still returns 1499. *)
Theorem C4_detached_object_still_attached
  (undefined : undefined_op -> Z) (D : Z) (decl : Servo) :
  let st := sketch undefined esp32_channels D decl
              [Call_attach 13; Call_writeMicroseconds 1500; Call_detach] in
  ChannelUsed_at st.1 (servoChannel st.2) = -1
  /\ pinNumber st.2 = -1
  /\ attached st.1 st.2 = true
  /\ readMicroseconds undefined esp32_channels st.1 st.2 = 1499.
Proof. intros st. vm_compute. repeat split; reflexivity. Qed.

(** C7 (the code at the failing input): an attached object at 20 bits
    holding 78643 ticks reads 1499 us; setTimerWidth(16) shifts the ticks
    left by 4 and the object then reads 383999 us. *)
Theorem C7_narrowing_scales_the_pulse
  (undefined : undefined_op -> Z) (D : Z) (decl : Servo) :
  let st := sketch undefined esp32_channels D decl
              [Call_attach 13; Call_setTimerWidth 20; Call_writeMicroseconds 1500] in
  let st' := setTimerWidth undefined esp32_channels st.1 st.2 16 in
  (attached st.1 st.2 = true
   /\ readTimerWidth st.2 = 20
   /\ ticks st.2 = 78643
   /\ readMicroseconds undefined esp32_channels st.1 st.2 = 1499)
  /\ readTimerWidth st'.2 = 16
  /\ ticks st'.2 = 1258288
  /\ readMicroseconds undefined esp32_channels st'.1 st'.2 = 383999.
Proof. intros st st'. vm_compute. repeat split; reflexivity. Qed.

(** C9 (the code at the failing input): after attach(13, 2600, 2700) on a
    freshly constructed object the stored bounds are min = 2600 and
    max = 2500, so min is outside [500, 2500] and writeMicroseconds(1500)
    stores the tick count of a 2600 us pulse; after attach(13, 3000, 100)
    the stored bounds are min = 3000 and max = 100, both outside
    [500, 2500]. *)
Theorem C9_attach_stores_out_of_range_bounds
  (undefined : undefined_op -> Z) (D : Z) (decl : Servo) :
  let st := sketch undefined esp32_channels D decl
              [Call_attach_min_max 13 2600 2700] in
  let st' := sketch undefined esp32_channels D decl
               [Call_attach_min_max 13 3000 100] in
  (min st.2 = 2600 /\ max st.2 = 2500
   /\ ~ (MIN_PULSE_WIDTH <= min st.2 <= MAX_PULSE_WIDTH)
   /\ ticks (writeMicroseconds undefined esp32_channels st.1 st.2 1500).2
      = usToTicks undefined st.2 2600)
  /\ min st'.2 = 3000 /\ max st'.2 = 100
  /\ ~ (MIN_PULSE_WIDTH <= min st'.2 <= MAX_PULSE_WIDTH)
  /\ ~ (MIN_PULSE_WIDTH <= max st'.2 <= MAX_PULSE_WIDTH).
Proof.
  intros st st'.
  assert (Hmin : min st.2 = 2600) by (vm_compute; reflexivity).
  assert (Hmax : max st.2 = 2500) by (vm_compute; reflexivity).
  assert (Hmin' : min st'.2 = 3000) by (vm_compute; reflexivity).
  assert (Hmax' : max st'.2 = 100) by (vm_compute; reflexivity).
  assert (Hticks :
    ticks (writeMicroseconds undefined esp32_channels st.1 st.2 1500).2
    = usToTicks undefined st.2 2600) by (vm_compute; reflexivity).
  clearbody st st'. unfold MIN_PULSE_WIDTH, MAX_PULSE_WIDTH.
  split; [split; [exact Hmin | split; [exact Hmax | split; [lia | exact Hticks]]]|].
  split; [exact Hmin'|]. split; [exact Hmax'|]. split; lia.
Qed.

(** *** Witnesses *)

Lemma C1_witness :
  (3 <= esp32_channels)%nat
  /\ let l := (construct_many esp32_channels esp32_default_ticks 3
                 (initial esp32_channels) (declared esp32_default_ticks)).2 in
     length l = 3%nat
     /\ (forall (i : nat) s, l !! i = Some s ->
           servoChannel s = Z.of_nat i + 1)
     /\ NoDup (servoChannel <$> l)
     /\ (forall s, s ∈ l -> 1 <= servoChannel s <= Z.of_nat 3).
Proof.
  assert (H : (3 <= esp32_channels)%nat) by (unfold esp32_channels; lia).
  split; [exact H|].
  exact (C1_consecutive_constructions esp32_channels esp32_default_ticks 3
           (declared esp32_default_ticks) H).
Defined.

Lemma C2_witness :
  let M := esp32_channels in
  let D := esp32_default_ticks in
  let decl := declared D in
  let c1 := Servo_Servo M D (initial M) decl in
  let c2 := Servo_Servo M D c1.1 decl in
  let d1 := detach c2.1 c1.2 in
  (reclaimable d1.1 1 /\ servoChannel (Servo_Servo M D d1.1 decl).2 = 1)
  /\ (attached c2.1 c2.2 = true
      /\ servoChannel (Servo_Servo M D (detach c2.1 c2.2).1 decl).2
         = servoChannel c2.2).
Proof.
  intros M D decl c1 c2 d1.
  destruct (C2_lowest_reclaimable_wins M D) as [Hlow Hdet].
  split.
  - assert (Hr : reclaimable d1.1 1) by (vm_compute; reflexivity).
    split; [exact Hr|].
    refine (proj1 (Hlow d1.1 decl 1 _ _ Hr _)).
    + vm_compute; reflexivity.
    + unfold M, esp32_channels; lia.
    + intros k Hk; lia.
  - assert (Hatt : attached c2.1 c2.2 = true) by (vm_compute; reflexivity).
    split; [exact Hatt|].
    assert (Hlen : length (ChannelUsed c2.1) = S M) by (vm_compute; reflexivity).
    assert (Hch : 1 <= servoChannel c2.2 <= Z.of_nat M)
      by (vm_compute; split; discriminate).
    apply (proj2 (Hdet c2.1 c2.2 decl Hlen Hch Hatt)).
    intros k Hk.
    assert (Hc : servoChannel c2.2 = 2) by (vm_compute; reflexivity).
    assert (k = 1) as -> by lia.
    vm_compute. discriminate.
Defined.

Lemma C3_witness :
  let M := esp32_channels in
  let D := esp32_default_ticks in
  let decl := declared D in
  let g := (construct_many M D M (initial M) decl).1 in
  let s := (Servo_Servo M D g decl).2 in
  exhausted M g
  /\ servoChannel s = 0
  /\ (attach M D g s 13).2 = 0
  /\ writeMicroseconds zero_target M g s 1500 = (g, s)
  /\ readMicroseconds zero_target M g s = 0.
Proof.
  intros M D decl g s.
  assert (Hex : exhausted M g) by apply construct_many_exhausts.
  destruct (C3_exhausted_pool zero_target M D g decl Hex) as [Hctor Hops].
  assert (H0 : ChannelUsed_at g 0 = 0) by (vm_compute; reflexivity).
  destruct (Hops g H0) as (_ & _ & Hatt & _ & Hwm & _ & Hrm & _).
  assert (Hs : s = servoChannel_set 0 decl) by (unfold s; by rewrite Hctor).
  rewrite Hs.
  split; [exact Hex|]. split; [reflexivity|].
  split; [by rewrite Hatt|]. split; [apply Hwm | exact Hrm].
Defined.

Lemma C5_witness :
  let s := mkServo 1 544 2400 13 16 4915 (pow2 16) in
  16 <= 16 <= 20
  /\ MIN_PULSE_WIDTH <= 1500 <= MAX_PULSE_WIDTH
  /\ 1500 - 1 <= ticksToUs zero_target s (usToTicks zero_target s 1500) <= 1500.
Proof.
  intros s.
  assert (Hw : 16 <= 16 <= 20) by lia.
  assert (Hus : MIN_PULSE_WIDTH <= 1500 <= MAX_PULSE_WIDTH)
    by (unfold MIN_PULSE_WIDTH, MAX_PULSE_WIDTH; lia).
  split; [exact Hw|]. split; [exact Hus|].
  exact (C5_roundtrip_within_one_us zero_target s 16 1500 Hw eq_refl Hus).
Defined.

Lemma C6_witness :
  let M := esp32_channels in
  let D := esp32_default_ticks in
  let st := sketch zero_target M D (declared D) [Call_attach 13] in
  attached st.1 st.2 = true
  /\ Z.abs (read zero_target M (write zero_target M st.1 st.2 90).1
                               (write zero_target M st.1 st.2 90).2 - 90) <= 1.
Proof.
  intros M D st.
  assert (Hatt : attached st.1 st.2 = true) by (vm_compute; reflexivity).
  split; [exact Hatt|].
  apply (C6_write_read_within_one_degree zero_target M st.1 st.2 90).
  - vm_compute; discriminate.
  - exact Hatt.
  - vm_compute; reflexivity.
  - vm_compute; reflexivity.
  - vm_compute; reflexivity.
  - vm_compute; reflexivity.
  - lia.
Defined.

Lemma C8_witness :
  let M := esp32_channels in
  let D := esp32_default_ticks in
  let st := sketch zero_target M D (declared D)
              [Call_attach 13; Call_writeMicroseconds 1500] in
  let d := detach st.1 st.2 in
  attached st.1 st.2 = true
  /\ ticks d.2 = ticks st.2
  /\ ticks (attach M D d.1 d.2 13).1.2 = D.
Proof.
  intros M D st d.
  assert (Hatt : attached st.1 st.2 = true) by (vm_compute; reflexivity).
  assert (Hch : 1 <= servoChannel st.2 <= Z.of_nat M)
    by (vm_compute; split; discriminate).
  destruct (C8_detach_keeps_ticks_reattach_resets M D st.1 st.2 13 Hch Hatt)
    as ((Hticks & _) & _ & Hreset & _).
  split; [exact Hatt|]. split; [exact Hticks | exact Hreset].
Defined.

Lemma C10_witness :
  let M := esp32_channels in
  let D := esp32_default_ticks in
  let st := sketch zero_target M D (declared D) [Call_attach 13] in
  attached st.1 st.2 = true
  /\ MIN_PULSE_WIDTH < min st.2 <= max st.2
  /\ ticks (write zero_target M st.1 st.2 499).2
     = usToTicks zero_target st.2 (max st.2)
  /\ ticks (write zero_target M st.1 st.2 500).2
     = usToTicks zero_target st.2 (min st.2).
Proof.
  intros M D st.
  assert (Hatt : attached st.1 st.2 = true) by (vm_compute; reflexivity).
  assert (Hch : servoChannel st.2 <= Z.of_nat M) by (vm_compute; discriminate).
  assert (Hmin : MIN_PULSE_WIDTH < min st.2) by (vm_compute; reflexivity).
  assert (Hle : min st.2 <= max st.2) by (vm_compute; discriminate).
  assert (Hmax : max st.2 <= MAX_PULSE_WIDTH) by (vm_compute; discriminate).
  destruct (C10_write_threshold zero_target M st.1 st.2 Hch Hatt Hmin Hle Hmax)
    as (_ & H499 & _ & H500).
  split; [exact Hatt|]. split; [split; [exact Hmin | exact Hle]|].
  split; [exact H499 | exact H500].
Defined.

(** *** Counterexamples *)

(** Two objects are constructed (channels 1 and 2) and both detached, the
    second one last; the object constructed next gets channel 1, not the
    channel 2 of the object detached just before. *)
Lemma C2_counterexample :
  let M := esp32_channels in
  let D := esp32_default_ticks in
  let decl := declared D in
  let c1 := Servo_Servo M D (initial M) decl in
  let c2 := Servo_Servo M D c1.1 decl in
  let d1 := detach c2.1 c1.2 in
  let d2 := detach d1.1 c2.2 in
  let b := Servo_Servo M D d2.1 decl in
  servoChannel c2.2 = 2
  /\ attached d1.1 c2.2 = true
  /\ reclaimable d2.1 (servoChannel c2.2)
  /\ servoChannel b.2 = 1
  /\ servoChannel b.2 <> servoChannel c2.2.
Proof.
  intros M D decl c1 c2 d1 d2 b.
  assert (Hb : servoChannel b.2 = 1) by (vm_compute; reflexivity).
  assert (Ha : servoChannel c2.2 = 2) by (vm_compute; reflexivity).
  split; [exact Ha|].
  split; [vm_compute; reflexivity|].
  split; [vm_compute; reflexivity|].
  split; [exact Hb|]. rewrite Hb, Ha. lia.
Qed.

(** With all 16 channels handed out, a further object whose bounds are
    the defaults 544/2400 gets channel 0 and its read() returns -52,
    which is neither zero nor an angle in [0, 180]. *)
Lemma C3_counterexample :
  let M := esp32_channels in
  let D := esp32_default_ticks in
  let decl := declared D in
  let g := (construct_many M D M (initial M) decl).1 in
  let s := (Servo_Servo M D g decl).2 in
  ServoCount g = 16
  /\ ChannelUsed g = 0 :: replicate 16 1
  /\ servoChannel s = 0
  /\ read zero_target M g s = -52
  /\ ~ (0 <= read zero_target M g s <= 180).
Proof.
  intros M D decl g s.
  assert (Hr : read zero_target M g s = -52) by (vm_compute; reflexivity).
  split; [vm_compute; reflexivity|].
  split; [vm_compute; reflexivity|].
  split; [vm_compute; reflexivity|].
  split; [exact Hr|]. rewrite Hr. lia.
Qed.

(** At 16 bits, 1500 us converts to 4915 ticks and back to 1499 us: the
    error of 1 us exceeds one tick length, 20000 / 2 ^ 16 us. *)
Lemma C5_counterexample :
  let s := mkServo 1 544 2400 13 16 4915 (pow2 16) in
  usToTicks zero_target s 1500 = 4915
  /\ ticksToUs zero_target s 4915 = 1499
  /\ ~ (Z.abs (1500 - ticksToUs zero_target s (usToTicks zero_target s 1500))
        * 2 ^ 16 <= REFRESH_USEC).
Proof.
  intros s.
  assert (H1 : usToTicks zero_target s 1500 = 4915) by (vm_compute; reflexivity).
  assert (H2 : ticksToUs zero_target s 4915 = 1499) by (vm_compute; reflexivity).
  split; [exact H1|]. split; [exact H2|].
  rewrite H1, H2. unfold REFRESH_USEC. lia.
Qed.

(** An attached object holding 4915 ticks is detached and attached
    again: it then holds the default tick count, not 4915. *)
Lemma C8_counterexample :
  let M := esp32_channels in
  let D := esp32_default_ticks in
  let st := sketch zero_target M D (declared D)
              [Call_attach 13; Call_writeMicroseconds 1500] in
  let st' := run zero_target M D [Call_detach; Call_attach 13] st in
  attached st.1 st.2 = true
  /\ ticks st.2 = 4915
  /\ ticks st'.2 = 4825
  /\ ticks st'.2 <> ticks st.2.
Proof.
  intros M D st st'.
  assert (H1 : ticks st.2 = 4915) by (vm_compute; reflexivity).
  assert (H2 : ticks st'.2 = 4825) by (vm_compute; reflexivity).
  split; [vm_compute; reflexivity|].
  split; [exact H1|]. split; [exact H2|]. rewrite H1, H2. lia.
Qed.

(** After attach(13, 3000, 1000) the object is attached with
    minPulseUs = 3000 > 500 and maxPulseUs = 1000; write(499) maps the
    angle 180 to 1000 us, which writeMicroseconds raises to minPulseUs: the
    stored tick count is that of minPulseUs (9830), not of maxPulseUs
    (3276). *)
Lemma C10_counterexample :
  let M := esp32_channels in
  let D := esp32_default_ticks in
  let st := sketch zero_target M D (declared D) [Call_attach_min_max 13 3000 1000] in
  attached st.1 st.2 = true
  /\ MIN_PULSE_WIDTH < min st.2
  /\ usToTicks zero_target st.2 (max st.2) = 3276
  /\ ticks (write zero_target M st.1 st.2 499).2 = 9830
  /\ ticks (write zero_target M st.1 st.2 499).2
     <> usToTicks zero_target st.2 (max st.2).
Proof.
  intros M D st.
  assert (H1 : usToTicks zero_target st.2 (max st.2) = 3276)
    by (vm_compute; reflexivity).
  assert (H2 : ticks (write zero_target M st.1 st.2 499).2 = 9830)
    by (vm_compute; reflexivity).
  split; [vm_compute; reflexivity|].
  split; [vm_compute; reflexivity|].
  split; [exact H1|]. split; [exact H2|]. rewrite H1, H2. lia.
Qed.

(** *** Witnesses of the further properties *)

Lemma X1_witness :
  let M := esp32_channels in
  let D := esp32_default_ticks in
  let st := sketch zero_target M D (declared D) [] in
  1 <= servoChannel st.2 <= Z.of_nat M
  /\ (attach_min_max M D st.1 st.2 13 400 2600).2 = 1
  /\ min (attach_min_max M D st.1 st.2 13 400 2600).1.2 = 500
  /\ max (attach_min_max M D st.1 st.2 13 400 2600).1.2 = 2500.
Proof.
  intros M D st.
  assert (Hch : 1 <= servoChannel st.2 <= Z.of_nat M)
    by (vm_compute; split; discriminate).
  pose proof (X1_attach_binds_and_bounds M D st.1 st.2 13 400 2600 Hch) as H.
  split; [exact Hch|]. split; [exact (proj1 H)|].
  split; vm_compute; reflexivity.
Defined.

Lemma X3_witness :
  let M := esp32_channels in
  let D := esp32_default_ticks in
  let st := sketch zero_target M D (declared D)
              [Call_attach 13; Call_writeMicroseconds 1500] in
  (1 <= servoChannel st.2 <= Z.of_nat M /\ 0 <= pinNumber st.2)
  /\ ticks (attach_min_max M D st.1 st.2 14 1000 2000).1.2 = ticks st.2.
Proof.
  intros M D st.
  assert (Hch : 1 <= servoChannel st.2 <= Z.of_nat M)
    by (vm_compute; split; discriminate).
  assert (Hpin : 0 <= pinNumber st.2) by (vm_compute; discriminate).
  split; [split; [exact Hch | exact Hpin]|].
  exact (proj1 (X3_attach_again_keeps_pulse M D st.1 st.2 14 1000 2000 Hch Hpin)).
Defined.

Lemma X4_witness :
  let M := esp32_channels in
  let D := esp32_default_ticks in
  let st := sketch zero_target M D (declared D) [] in
  ((attach_min_max_ENFORCE_PINS M D st.1 st.2 34 544 2400).2 <> 1
   /\ attach_min_max_ENFORCE_PINS M D st.1 st.2 34 544 2400 = (st.1, st.2, 0))
  /\ ((attach_min_max_ENFORCE_PINS M D st.1 st.2 13 544 2400).2 = 1
      /\ attach_min_max_ENFORCE_PINS M D st.1 st.2 13 544 2400
         = attach_min_max M D st.1 st.2 13 544 2400).
Proof.
  intros M D st.
  destruct (X4_enforce_pins M D st.1 st.2 34 544 2400) as (_ & _ & _ & Hno).
  destruct (X4_enforce_pins M D st.1 st.2 13 544 2400) as (_ & _ & Hyes & _).
  assert (H34 : (attach_min_max_ENFORCE_PINS M D st.1 st.2 34 544 2400).2 <> 1)
    by (vm_compute; discriminate).
  assert (H13 : (attach_min_max_ENFORCE_PINS M D st.1 st.2 13 544 2400).2 = 1)
    by (vm_compute; reflexivity).
  split; [split; [exact H34 | exact (Hno H34)]|].
  split; [exact H13 | exact (proj1 (Hyes H13))].
Defined.

Lemma X5_witness :
  let s := mkServo 1 544 2400 13 16 4915 (pow2 16) in
  (16 <= 16 <= 20 /\ MIN_PULSE_WIDTH <= 1500 <= MAX_PULSE_WIDTH)
  /\ usToTicks zero_target s 1500 = 1500 * 2 ^ 16 / REFRESH_USEC.
Proof.
  intros s.
  assert (Hw : 16 <= 16 <= 20) by lia.
  assert (Hus : MIN_PULSE_WIDTH <= 1500 <= MAX_PULSE_WIDTH)
    by (unfold MIN_PULSE_WIDTH, MAX_PULSE_WIDTH; lia).
  split; [split; [exact Hw | exact Hus]|].
  apply (proj2 (X5_usToTicks_exact zero_target s 16 1500 Hw eq_refl Hus)).
  lia.
Defined.

Lemma X6_witness :
  let s := mkServo 1 544 2400 13 20 0 (pow2 20) in
  (16 <= 20 <= 20 /\ MIN_PULSE_WIDTH <= 1000 /\ 1000 < 1001
   /\ 1001 <= MAX_PULSE_WIDTH)
  /\ usToTicks zero_target s 1000 < usToTicks zero_target s 1001.
Proof.
  intros s.
  assert (Hw : 16 <= 20 <= 20) by lia.
  assert (H1 : MIN_PULSE_WIDTH <= 1000) by (unfold MIN_PULSE_WIDTH; lia).
  assert (H2 : 1000 < 1001) by lia.
  assert (H3 : 1001 <= MAX_PULSE_WIDTH) by (unfold MAX_PULSE_WIDTH; lia).
  split; [exact (conj Hw (conj H1 (conj H2 H3)))|].
  exact (proj1 (X6_usToTicks_increasing zero_target s 20 1000 1001
                  Hw eq_refl H1 H2 H3)).
Defined.

Lemma X7_witness :
  let M := esp32_channels in
  let D := esp32_default_ticks in
  let st := sketch zero_target M D (declared D) [Call_attach 13] in
  let st' := writeMicroseconds zero_target M st.1 st.2 3000 in
  attached st.1 st.2 = true
  /\ constrain_pulse st.2 3000 - 1
     <= readMicroseconds zero_target M st'.1 st'.2
     <= constrain_pulse st.2 3000.
Proof.
  intros M D st st'.
  assert (Hatt : attached st.1 st.2 = true) by (vm_compute; reflexivity).
  split; [exact Hatt|].
  refine (proj2 (proj2 (X7_writeMicroseconds_readMicroseconds zero_target M
                          st.1 st.2 16 3000 _ Hatt _ _ _ _ _))).
  - vm_compute; discriminate.
  - lia.
  - vm_compute; reflexivity.
  - vm_compute; discriminate.
  - vm_compute; discriminate.
  - vm_compute; discriminate.
Defined.

Lemma X8_witness :
  let M := esp32_channels in
  let D := esp32_default_ticks in
  let st := sketch zero_target M D (declared D) [Call_attach 13] in
  (attached st.1 st.2 = true /\ 90 < MIN_PULSE_WIDTH)
  /\ ticks (write zero_target M st.1 st.2 90).2
     = usToTicks zero_target st.2
         (min st.2 + Z.max 0 (Z.min 180 90) * (max st.2 - min st.2) / 180).
Proof.
  intros M D st.
  assert (Hatt : attached st.1 st.2 = true) by (vm_compute; reflexivity).
  assert (Hv : 90 < MIN_PULSE_WIDTH) by (unfold MIN_PULSE_WIDTH; lia).
  split; [split; [exact Hatt | exact Hv]|].
  refine (proj1 (proj2 (X8_write_angle_interpolates zero_target M
                          st.1 st.2 90 _ Hatt _ _ _ Hv))).
  - vm_compute; discriminate.
  - vm_compute; discriminate.
  - vm_compute; discriminate.
  - vm_compute; discriminate.
Defined.


Lemma X10_witness :
  let M := esp32_channels in
  let D := esp32_default_ticks in
  let st := sketch zero_target M D (declared D) [Call_attach 13] in
  let d1 := detach st.1 st.2 in
  let d2 := detach d1.1 d1.2 in
  attached st.1 st.2 = true
  /\ ledc d2.1 = ledc d1.1 ++ [ledcDetachPin (-1)].
Proof.
  intros M D st d1 d2.
  assert (Hatt : attached st.1 st.2 = true) by (vm_compute; reflexivity).
  assert (Hlen : length (ChannelUsed st.1) = S M) by (vm_compute; reflexivity).
  assert (Hch : 1 <= servoChannel st.2 <= Z.of_nat M)
    by (vm_compute; split; discriminate).
  split; [exact Hatt|].
  exact (proj1 (proj2 (proj2 (proj2
           (X10_detach_twice zero_target M st.1 st.2 Hlen Hch Hatt))))).
Defined.

Lemma X11_witness :
  let M := esp32_channels in
  let D := esp32_default_ticks in
  let st := sketch zero_target M D (declared D)
              [Call_attach 13; Call_writeMicroseconds 1500] in
  timer_width st.2 = Z.max 16 (Z.min 20 7)
  /\ ticks (setTimerWidth zero_target M st.1 st.2 7).2 = ticks st.2.
Proof.
  intros M D st.
  assert (Hw : timer_width st.2 = Z.max 16 (Z.min 20 7))
    by (vm_compute; reflexivity).
  split; [exact Hw|].
  destruct (X11_setTimerWidth_clamps zero_target M st.1 st.2 7)
    as (_ & _ & _ & _ & _ & _ & _ & _ & Hsame & _).
  exact (Hsame Hw).
Defined.

Lemma X12_witness :
  let M := esp32_channels in
  let D := esp32_default_ticks in
  let decl := declared D in
  pool_inv M (initial M)
  /\ ledc (Servo_Servo M D (initial M) decl).1 = ledc (initial M)
  /\ attached (Servo_Servo M D (initial M) decl).1
              (Servo_Servo M D (initial M) decl).2 = true.
Proof.
  intros M D decl.
  assert (Hinv : pool_inv M (initial M)) by apply pool_inv_initial.
  destruct (X12_constructor_defaults M D (initial M) decl Hinv)
    as (Hl & _ & _ & Hpos & _).
  split; [exact Hinv|]. split; [exact Hl|].
  apply Hpos. vm_compute. reflexivity.
Defined.

Lemma X9_witness :
  let M := esp32_channels in
  let D := esp32_default_ticks in
  let st := sketch zero_target M D (declared D) [] in
  let ms := [Call_attach 13; Call_write 90; Call_detach] in
  (2%nat <> Z.to_nat (servoChannel st.2))
  /\ ChannelUsed (run zero_target M D ms st).1 !! 2%nat
     = ChannelUsed st.1 !! 2%nat.
Proof.
  intros M D st ms.
  assert (Hk : 2%nat <> Z.to_nat (servoChannel st.2))
    by (vm_compute; discriminate).
  split; [exact Hk|].
  destruct (X9_calls_touch_only_own_slot zero_target M D ms st)
    as (_ & _ & _ & _ & Hslots).
  exact (Hslots 2%nat Hk).
Defined.

Lemma X13_witness :
  let M := esp32_channels in
  let D := esp32_default_ticks in
  let c := Servo_Servo M D (initial M) (declared D) in
  let st := invoke zero_target M D Call_detach (c.1, c.2) in
  reachable zero_target M D st.1 (<[0%nat := st.2]> ([] ++ [c.2]))
  /\ (attached st.1 st.2 = true <-> 0 < servoChannel st.2).
Proof.
  intros M D c st.
  assert (Hreach : reachable zero_target M D st.1
                     (<[0%nat := st.2]> ([] ++ [c.2]))).
  { apply (reach_call zero_target M D c.1 ([] ++ [c.2]) 0 c.2 Call_detach).
    - apply reach_construct, reach_initial.
    - reflexivity. }
  split; [exact Hreach|].
  assert (Hin : st.2 ∈ <[0%nat := st.2]> ([] ++ [c.2]))
    by (cbn; apply list_elem_of_here).
  exact (proj1 (proj2 (proj2
           (X13_reachable_states zero_target M D _ _ st.2 Hreach Hin)))).
Defined.

Lemma X14_witness :
  let M := esp32_channels in
  let D := esp32_default_ticks in
  let c := Servo_Servo M D (initial M) (declared D) in
  let d := detach c.1 c.2 in
  let b := Servo_Servo M D d.1 (declared D) in
  reachable zero_target M D d.1 (<[0%nat := d.2]> ([] ++ [c.2]))
  /\ 0 < servoChannel b.2
  /\ ChannelUsed_at d.1 (servoChannel b.2) = -1
  /\ ChannelUsed_at b.1 (servoChannel b.2) = 1.
Proof.
  intros M D c d b.
  assert (Hreach : reachable zero_target M D d.1
                     (<[0%nat := d.2]> ([] ++ [c.2]))).
  { apply (reach_call zero_target M D c.1 ([] ++ [c.2]) 0 c.2 Call_detach).
    - apply reach_construct, reach_initial.
    - reflexivity. }
  assert (Hpos : 0 < servoChannel b.2) by (vm_compute; reflexivity).
  destruct (X14_constructor_never_takes_in_use zero_target M D d.1 _
              (declared D) Hreach) as [Hnew _].
  split; [exact Hreach|]. split; [exact Hpos|].
  split; [vm_compute; reflexivity | exact (proj2 (Hnew Hpos))].
Defined.

Lemma X15_witness :
  let M := esp32_channels in
  let D := esp32_default_ticks in
  let decl := declared D in
  let g := (construct_many M D M (initial M) decl).1 in
  let a := (Servo_Servo M D (initial M) decl).2 in
  (exhausted M g /\ attached g a = true)
  /\ servoChannel (Servo_Servo M D (detach g a).1 decl).2 = servoChannel a.
Proof.
  intros M D decl g a.
  assert (Hex : exhausted M g) by apply construct_many_exhausts.
  assert (Hatt : attached g a = true) by (vm_compute; reflexivity).
  assert (Hlen : length (ChannelUsed g) = S M) by (vm_compute; reflexivity).
  assert (Hch : 1 <= servoChannel a <= Z.of_nat M)
    by (vm_compute; split; discriminate).
  split; [split; [exact Hex | exact Hatt]|].
  exact (proj1 (X15_reuse_at_capacity M D g a decl Hex Hlen Hch Hatt)).
Defined.

Lemma X16_witness :
  let M := esp32_channels in
  let D := esp32_default_ticks in
  let decl := declared D in
  let st := sketch zero_target M D decl [Call_attach 13] in
  let d := detach st.1 st.2 in
  let c := Servo_Servo M D d.1 decl in
  let r := attach M D c.1 d.2 14 in
  attached st.1 st.2 = true
  /\ r.2 = 1
  /\ servoChannel c.2 = servoChannel st.2
  /\ servoChannel r.1.2 = servoChannel st.2.
Proof.
  intros M D decl st d c r.
  assert (Hatt : attached st.1 st.2 = true) by (vm_compute; reflexivity).
  assert (Hlen : length (ChannelUsed st.1) = S M) by (vm_compute; reflexivity).
  assert (Hch : 1 <= servoChannel st.2 <= Z.of_nat M)
    by (vm_compute; split; discriminate).
  assert (Hlow : forall k, 1 <= k < servoChannel st.2 -> ~ reclaimable st.1 k).
  { intros k Hk. assert (Hc : servoChannel st.2 = 1) by (vm_compute; reflexivity).
    lia. }
  destruct (X16_reattach_shares_channel zero_target M D st.1 st.2 decl 14 1500
              Hlen Hch Hatt Hlow) as (H1 & H2 & H3 & _).
  split; [exact Hatt|]. split; [exact H1|]. split; [exact H2 | exact H3].
Defined.


Lemma X17_witness :
  let M := esp32_channels in
  let D := esp32_default_ticks in
  let st := sketch zero_target M D (declared D)
              [Call_attach_min_max 13 1000 2000; Call_setTimerWidth 16] in
  (attached st.1 st.2 = true /\ 180 < max st.2 - min st.2)
  /\ 0 <= read zero_target M (write zero_target M st.1 st.2 3000).1
                             (write zero_target M st.1 st.2 3000).2 <= 180.
Proof.
  intros M D st.
  assert (Hatt : attached st.1 st.2 = true) by (vm_compute; reflexivity).
  assert (Hd : 180 < max st.2 - min st.2) by (vm_compute; reflexivity).
  split; [split; [exact Hatt | exact Hd]|].
  apply (X17_read_is_an_angle zero_target M st.1 st.2 16 3000).
  - vm_compute; discriminate.
  - exact Hatt.
  - lia.
  - vm_compute; reflexivity.
  - vm_compute; discriminate.
  - exact Hd.
  - vm_compute; discriminate.
Defined.

Lemma X18_witness :
  let M := esp32_channels in
  let D := esp32_default_ticks in
  let st := sketch zero_target M D (declared D)
              [Call_attach_min_max 13 1000 2000] in
  (attached st.1 st.2 = true /\ 180 <= max st.2 - min st.2)
  /\ Z.abs (read zero_target M (write zero_target M st.1 st.2 45).1
                               (write zero_target M st.1 st.2 45).2 - 45) <= 1.
Proof.
  intros M D st.
  assert (Hatt : attached st.1 st.2 = true) by (vm_compute; reflexivity).
  assert (Hd : 180 <= max st.2 - min st.2) by (vm_compute; discriminate).
  split; [split; [exact Hatt | exact Hd]|].
  apply (X18_write_read_any_bounds zero_target M st.1 st.2 16 45).
  - vm_compute; discriminate.
  - exact Hatt.
  - lia.
  - vm_compute; reflexivity.
  - vm_compute; discriminate.
  - exact Hd.
  - vm_compute; discriminate.
  - lia.
Defined.
